(** * Resume layout engine: header extraction, line wrapping, inline bold
      runs, date reformatting and page flow

    Shallow embedding of the helpers of
    [src/app/api/generate-dynamic-resume-pdf/route.ts]
    ([parseResume], [formatDate], [wrapText], [drawTextWithBold],
    [generateResumePdf], and the file name [POST] gives the response) with
    the properties the specification states about them and further
    properties read off the code.

    Conventions.
    - A JavaScript string is the list of its UTF-16 code units ([jstring]).
    - Lengths (font sizes, coordinates, measured widths) are integers counted
      in thousandths of a point, so that 15.4pt is [15400]; the arithmetic is
      exact, the rounding of IEEE doubles is not modelled.
    - The PDF document is the ordered list of the operations performed on it
      ([AddPage], [DrawText], [DrawLine]). *)

From Stdlib Require Import String Ascii.
From Stdlib Require Import List ZArith NArith Bool Lia.
Import ListNotations.

(* ================================================================== *)
(** ** JavaScript strings *)
(* ================================================================== *)

Module JsString.

Definition jstring := list N.

Local Open Scope N_scope.

(** Code units of a UTF-8 encoded literal (surrogate pair above the BMP). *)
Fixpoint utf16_of_utf8 (bs : list N) : jstring :=
  match bs with
  | [] => []
  | b0 :: t0 =>
    if b0 <? 128 then b0 :: utf16_of_utf8 t0
    else match t0 with
    | [] => [65533]
    | b1 :: t1 =>
      if b0 <? 224 then ((b0 mod 32) * 64 + b1 mod 64) :: utf16_of_utf8 t1
      else match t1 with
      | [] => [65533]
      | b2 :: t2 =>
        if b0 <? 240
        then ((b0 mod 16) * 4096 + (b1 mod 64) * 64 + b2 mod 64)
               :: utf16_of_utf8 t2
        else match t2 with
        | [] => [65533]
        | b3 :: t3 =>
          let cp := (b0 mod 8) * 262144 + (b1 mod 64) * 4096
                    + (b2 mod 64) * 64 + b3 mod 64 - 65536 in
          (55296 + cp / 1024) :: (56320 + cp mod 1024) :: utf16_of_utf8 t3
        end
      end
    end
  end.

Definition js (s : string) : jstring :=
  utf16_of_utf8 (map N_of_ascii (list_ascii_of_string s)).

Definition LF : N := 10.
Definition CR : N := 13.
Definition SPACE : N := 32.
Definition ASTERISK : N := 42.
Definition HYPHEN : N := 45.
Definition SLASH : N := 47.
Definition COLON : N := 58.
Definition MIDDLE_DOT : N := 183.   (* U+00B7 *)
Definition EN_DASH : N := 8211.     (* U+2013 *)

(** ECMAScript LineTerminator. *)
Definition is_line_terminator (c : N) : bool :=
  (c =? 10) || (c =? 13) || (c =? 8232) || (c =? 8233).

(** ECMAScript WhiteSpace or LineTerminator: what [trim] strips and what
    the regular-expression class [\s] matches. *)
Definition is_space (c : N) : bool :=
  (c =? 9) || (c =? 10) || (c =? 11) || (c =? 12) || (c =? 13) || (c =? 32)
  || (c =? 160) || (c =? 5760) || ((8192 <=? c) && (c <=? 8202))
  || (c =? 8232) || (c =? 8233) || (c =? 8239) || (c =? 8287)
  || (c =? 12288) || (c =? 65279).

Definition is_digit (c : N) : bool := (48 <=? c) && (c <=? 57).

Fixpoint eqb (s t : jstring) : bool :=
  match s, t with
  | [], [] => true
  | c :: s', d :: t' => (c =? d) && eqb s' t'
  | _, _ => false
  end.

(** Truthiness of a string: a string is falsy exactly when it is empty. *)
Definition truthy (s : jstring) : bool :=
  match s with [] => false | _ :: _ => true end.

Fixpoint trimStart (s : jstring) : jstring :=
  match s with
  | [] => []
  | c :: r => if is_space c then trimStart r else s
  end.

Definition trimEnd (s : jstring) : jstring := rev (trimStart (rev s)).

Definition trim (s : jstring) : jstring := trimEnd (trimStart s).

(** [s.split(sep)] for a separator of one code unit. *)
Fixpoint split (sep : N) (s : jstring) : list jstring :=
  match s with
  | [] => [[]]
  | c :: r =>
    if c =? sep then [] :: split sep r
    else match split sep r with
         | h :: t => (c :: h) :: t
         | [] => [[c]]
         end
  end.

(** [xs.join(sep)]. *)
Fixpoint join (sep : jstring) (xs : list jstring) : jstring :=
  match xs with
  | [] => []
  | [x] => x
  | x :: r => x ++ sep ++ join sep r
  end.

Fixpoint startsWith (s p : jstring) {struct p} : bool :=
  match p, s with
  | [], _ => true
  | d :: p', c :: s' => (c =? d) && startsWith s' p'
  | _ :: _, [] => false
  end.

Definition endsWith (s p : jstring) : bool := startsWith (rev s) (rev p).

(** [s.includes(c)] for a one-unit needle. *)
Definition includes (s : jstring) (c : N) : bool := existsb (N.eqb c) s.

(** [s.slice(2, -2)]: code units from index 2 up to, excluding, index
    [length - 2]; empty when that range is empty. *)
Definition slice_2_m2 (s : jstring) : jstring :=
  firstn (length s - 2 - 2) (skipn 2 s).

End JsString.
Import JsString.

(* ================================================================== *)
(** ** parseResume *)
(* ================================================================== *)

Record resume := {
  headline : option jstring;
  name : option jstring;
  email : option jstring;
  phone : option jstring;
  location : option jstring;
  linkedin : option jstring;
  body : jstring
}.

(** The [for] loop of [parseResume], entered at index [idx] with [ls] the
    lines from [idx] on; yields the final [info] and [bodyStart].  Leaving
    the loop without [break] keeps [bodyStart] at its initial 0. *)
Fixpoint header_scan (ls : list jstring) (idx : nat) (info : list jstring)
  : list jstring * nat :=
  match ls with
  | [] => (info, 0%nat)
  | l :: r =>
    let info' := if truthy (trim l) then info ++ [trim l] else info in
    if (length info' =? 6)%nat then (info', S idx)
    else header_scan r (S idx) info'
  end.

(** The [while] loop skipping blank lines: [rest] is [lines.slice(bodyStart)]. *)
Fixpoint skip_blank (rest : list jstring) (bodyStart : nat) : nat :=
  match rest with
  | [] => bodyStart
  | l :: r => if truthy (trim l) then bodyStart else skip_blank r (S bodyStart)
  end.

Definition parseResume (resumeText : jstring) : resume :=
  let lines := split LF resumeText in
  let '(info, bodyStart) := header_scan lines 0 [] in
  let bodyStart := skip_blank (skipn bodyStart lines) bodyStart in
  {| headline := nth_error info 0;
     name := nth_error info 1;
     email := nth_error info 2;
     phone := nth_error info 3;
     location := nth_error info 4;
     linkedin := nth_error info 5;
     body := join [LF] (skipn bodyStart lines) |}.


(* ================================================================== *)
(** ** Regular expressions *)
(* ================================================================== *)

(** A backtracking matcher for the fragment of ECMAScript regular
    expressions the program uses: a pattern is a sequence of nodes, where a
    quantifier always applies to a one-unit class ([.+], [.+?], [\s*],
    [\d{2}], [[^*]+]).  Alternatives are tried in the order of the
    ECMAScript semantics, so the first success is the match JavaScript
    reports. *)
Module Regex.

Inductive node :=
| Chr (p : N -> bool)
| Rep (p : N -> bool) (min : nat) (max : option nat) (greedy : bool)
| Open (i : nat)
| Close (i : nat)
| Bol
| Eol.

Definition regex := list node.

(** A finished capture: group number, start index, end index. *)
Definition capture := (nat * nat * nat)%type.

Record mstate := {
  opened : list (nat * nat);
  closed : list capture
}.

Definition allows (max : option nat) : bool :=
  match max with Some O => false | _ => true end.

Definition dec (max : option nat) : option nat :=
  match max with Some n => Some (pred n) | None => None end.

(** [rep p greedy k min max s pos]: match between [min] and [max] units of
    class [p] at the front of [s], then the continuation [k]. *)
Fixpoint rep {R : Type} (p : N -> bool) (greedy : bool)
    (k : jstring -> nat -> option R) (min : nat) (max : option nat)
    (s : jstring) (pos : nat) {struct s} : option R :=
  match min with
  | S m =>
    match s with
    | c :: s' => if p c then rep p greedy k m (dec max) s' (S pos) else None
    | [] => None
    end
  | O =>
    let more :=
      match s with
      | c :: s' =>
        if p c && allows max then rep p greedy k O (dec max) s' (S pos)
        else None
      | [] => None
      end in
    if greedy
    then match more with Some r => Some r | None => k s pos end
    else match k s pos with Some r => Some r | None => more end
  end.

Fixpoint find_open (i : nat) (l : list (nat * nat)) : nat :=
  match l with
  | [] => O
  | (j, p) :: r => if Nat.eqb i j then p else find_open i r
  end.

(** [run re s pos st]: match [re] against the suffix [s] that starts at
    index [pos] of the input; the result is the end index with the
    captures. *)
Fixpoint run (re : regex) (s : jstring) (pos : nat) (st : mstate)
  : option (nat * mstate) :=
  match re with
  | [] => Some (pos, st)
  | Chr p :: re' =>
    match s with
    | c :: s' => if p c then run re' s' (S pos) st else None
    | [] => None
    end
  | Rep p min max greedy :: re' =>
    rep p greedy (fun s' pos' => run re' s' pos' st) min max s pos
  | Open i :: re' =>
    run re' s pos {| opened := (i, pos) :: opened st; closed := closed st |}
  | Close i :: re' =>
    run re' s pos {| opened := opened st;
                     closed := (i, find_open i (opened st), pos) :: closed st |}
  | Bol :: re' => if Nat.eqb pos 0 then run re' s pos st else None
  | Eol :: re' => match s with [] => run re' s pos st | _ :: _ => None end
  end.

Definition start : mstate := {| opened := []; closed := [] |}.

(** Match exactly at index [pos] (a sticky match). *)
Definition match_at (re : regex) (s : jstring) (pos : nat)
  : option (nat * mstate) :=
  run re s pos start.

(** Leftmost match at or after [pos]: start index, end index, captures. *)
Fixpoint search (re : regex) (s : jstring) (pos : nat)
  : option (nat * nat * mstate) :=
  match match_at re s pos with
  | Some (e, st) => Some (pos, e, st)
  | None =>
    match s with
    | [] => None
    | _ :: s' => search re s' (S pos)
    end
  end.

Definition substring (input : jstring) (b e : nat) : jstring :=
  firstn (e - b) (skipn b input).

Fixpoint find_closed (i : nat) (l : list capture) : option (nat * nat) :=
  match l with
  | [] => None
  | (j, b, e) :: r => if Nat.eqb i j then Some (b, e) else find_closed i r
  end.

(** The text of group [i]; no group of the program's patterns is optional,
    so a group of a successful match always took part in it. *)
Definition group (input : jstring) (st : mstate) (i : nat) : jstring :=
  match find_closed i (closed st) with
  | Some (b, e) => substring input b e
  | None => []
  end.

(** [re.test(input)]. *)
Definition test (re : regex) (input : jstring) : bool :=
  match search re input 0 with Some _ => true | None => false end.

(** [input.match(re)] for a pattern without the [g] flag and with [n]
    groups: the whole match followed by the groups, or [None] for [null]. *)
Definition exec (re : regex) (n : nat) (input : jstring)
  : option (list jstring) :=
  match search re input 0 with
  | Some (b, e, st) =>
    Some (substring input b e :: map (group input st) (seq 1 n))
  | None => None
  end.

(** The loop of [RegExp.prototype[Symbol.split]]: [p] is the end of the last
    separator, [q] the index tried next, [s] the suffix at [q].  Every
    round moves [q] forward or (after an empty match away from [p]) moves
    [p] up to [q], hence [fuel] of twice the length bounds the rounds. *)
Fixpoint split_loop (fuel : nat) (re : regex) (n : nat) (input : jstring)
    (p q : nat) : list jstring :=
  match fuel with
  | O => [skipn p input]
  | S fuel' =>
    if Nat.ltb q (length input) then
      match match_at re (skipn q input) q with
      | None => split_loop fuel' re n input p (S q)
      | Some (e0, st) =>
        let e := Nat.min e0 (length input) in
        if Nat.eqb e p then split_loop fuel' re n input p (S q)
        else substring input p q
               :: map (group input st) (seq 1 n)
               ++ split_loop fuel' re n input e e
      end
    else [skipn p input]
  end.

(** [input.split(re)] for a pattern with [n] groups. *)
Definition split (re : regex) (n : nat) (input : jstring) : list jstring :=
  match input with
  | [] => match match_at re [] 0 with Some _ => [] | None => [[]] end
  | _ :: _ => split_loop (2 * length input + 2) re n input 0 0
  end.

Definition lit (s : jstring) : regex := map (fun c => Chr (N.eqb c)) s.

(** The class [.]: any unit but a line terminator. *)
Definition dot (c : N) : bool := negb (is_line_terminator c).

End Regex.

(* ================================================================== *)
(** ** formatDate *)
(* ================================================================== *)

Definition monthNames : list jstring :=
  map js ["Jan"; "Feb"; "Mar"; "Apr"; "May"; "Jun";
          "Jul"; "Aug"; "Sep"; "Oct"; "Nov"; "Dec"]%string.

(** [/^\d{2}\/\d{4}$/] *)
Definition re_mm_yyyy : Regex.regex :=
  [Regex.Bol; Regex.Rep is_digit 2 (Some 2%nat) true; Regex.Chr (N.eqb SLASH);
   Regex.Rep is_digit 4 (Some 4%nat) true; Regex.Eol].

(** [/[–-]/] *)
Definition re_dash : Regex.regex :=
  [Regex.Chr (fun c => N.eqb c EN_DASH || N.eqb c HYPHEN)].

(** Value of the longest prefix of decimal digits, after [acc]. *)
Fixpoint digits_value (s : jstring) (acc : Z) : Z :=
  match s with
  | c :: r => if is_digit c then digits_value r (10 * acc + (Z.of_N c - 48))%Z
              else acc
  | [] => acc
  end.

(** [parseInt(s)] without radix: leading white space, an optional sign, then
    the longest run of decimal digits; [None] is [NaN].  A [0x] prefix
    selects radix 16 in JavaScript: then the digit run is hexadecimal. *)
Definition hex_digit (c : N) : option Z :=
  if is_digit c then Some (Z.of_N c - 48)%Z
  else if (N.leb 97 c && N.leb c 102) then Some (Z.of_N c - 87)%Z
  else if (N.leb 65 c && N.leb c 70) then Some (Z.of_N c - 55)%Z
  else None.

Fixpoint hex_value (s : jstring) (acc : Z) : Z :=
  match s with
  | c :: r => match hex_digit c with
              | Some d => hex_value r (16 * acc + d)%Z
              | None => acc
              end
  | [] => acc
  end.

Definition parse_magnitude (s : jstring) : option Z :=
  match s with
  | 48%N :: x :: h :: r =>
    if (N.eqb x 120 || N.eqb x 88)
    then match hex_digit h with
         | Some _ => Some (hex_value (h :: r) 0)
         | None => None
         end
    else Some (digits_value s 0)
  | 48%N :: x :: [] =>
    if (N.eqb x 120 || N.eqb x 88) then None else Some (digits_value s 0)
  | c :: _ => if is_digit c then Some (digits_value s 0) else None
  | [] => None
  end.

Definition parseInt (s : jstring) : option Z :=
  match trimStart s with
  | 45%N :: r => option_map Z.opp (parse_magnitude r)
  | 43%N :: r => parse_magnitude r
  | r => parse_magnitude r
  end.

(** [arr[i]] on the month table: [undefined] is [None]. *)
Definition month_at (i : option Z) : option jstring :=
  match i with
  | Some z => if (z <? 0)%Z then None else nth_error monthNames (Z.to_nat z)
  | None => None
  end.

(** A value inside a template literal. *)
Definition interpolate (v : option jstring) : jstring :=
  match v with Some s => s | None => js "undefined" end.

(** The body shared by both reformatting branches:
    [const [month, year] = part.split('/')] and the template literal. *)
Definition month_year (part : jstring) : jstring :=
  let fields := JsString.split SLASH part in
  let month := nth_error fields 0 in
  let year := nth_error fields 1 in
  let monthIndex := option_map (fun n => (n - 1)%Z)
                      (match month with Some m => parseInt m | None => None end) in
  interpolate (month_at monthIndex) ++ [SPACE] ++ interpolate year.

Definition format_part (part : jstring) : jstring :=
  if Regex.test re_mm_yyyy part then month_year part else part.

Definition formatDate (dateStr : jstring) : jstring :=
  if includes dateStr EN_DASH || includes dateStr HYPHEN then
    let parts := map trim (Regex.split re_dash 0 dateStr) in
    join (js " – ") (map format_part parts)
  else if Regex.test re_mm_yyyy dateStr then month_year dateStr
  else dateStr.

(* ================================================================== *)
(** ** Fonts, pages and the geometry of [generateResumePdf] *)
(* ================================================================== *)

Inductive font := Helvetica | HelveticaBold.

Inductive color := BLACK | DARK_BLUE | MEDIUM_BLUE | GRAY | DARK_GRAY.

(** What the program does to the PDF document, in order.  A text or a line
    is drawn on the page added last. *)
Inductive op :=
| AddPage (width height : Z)
| DrawText (text : jstring) (x y size : Z) (f : font) (c : color)
| DrawLine (x1 y1 x2 y2 thickness : Z) (c : color).

Module Geometry.
Local Open Scope Z_scope.

(** Points to thousandths of a point. *)
Definition pt (n : Z) : Z := n * 1000.

Definition MARGIN_TOP := pt 72.
Definition MARGIN_BOTTOM := pt 50.
Definition MARGIN_LEFT := pt 50.
Definition MARGIN_RIGHT := pt 50.
Definition PAGE_WIDTH := pt 595.
Definition PAGE_HEIGHT := pt 842.
Definition CONTENT_WIDTH := PAGE_WIDTH - MARGIN_LEFT - MARGIN_RIGHT.

Definition NAME_SIZE := pt 24.
Definition CONTACT_SIZE := pt 9.
Definition SECTION_HEADER_SIZE := pt 14.
Definition BODY_SIZE := pt 11.

Definition NAME_LINE_HEIGHT := NAME_SIZE * 8 / 10.
Definition CONTACT_LINE_HEIGHT := CONTACT_SIZE * 15 / 10.
Definition SECTION_LINE_HEIGHT := SECTION_HEADER_SIZE * 15 / 10.
Definition BODY_LINE_HEIGHT := BODY_SIZE * 14 / 10.

Definition left := MARGIN_LEFT.
Definition right := PAGE_WIDTH - MARGIN_RIGHT.

End Geometry.
Import Geometry.

(** The splitter of [drawTextWithBold]: one group holding two asterisks, one
    or more units other than an asterisk, and two asterisks. *)
Definition re_bold : Regex.regex :=
  [Regex.Open 1; Regex.Chr (N.eqb ASTERISK); Regex.Chr (N.eqb ASTERISK);
   Regex.Rep (fun c => negb (N.eqb c ASTERISK)) 1 None true;
   Regex.Chr (N.eqb ASTERISK); Regex.Chr (N.eqb ASTERISK); Regex.Close 1].

(** [/ at .+:.+/] *)
Definition re_job_test : Regex.regex :=
  Regex.lit (js " at ")
  ++ [Regex.Rep Regex.dot 1 None true; Regex.Chr (N.eqb COLON);
      Regex.Rep Regex.dot 1 None true].

(** [/^(.+?) at (.+?):\s*(.+)$/] *)
Definition re_job : Regex.regex :=
  [Regex.Bol; Regex.Open 1; Regex.Rep Regex.dot 1 None false; Regex.Close 1]
  ++ Regex.lit (js " at ")
  ++ [Regex.Open 2; Regex.Rep Regex.dot 1 None false; Regex.Close 2;
      Regex.Chr (N.eqb COLON); Regex.Rep is_space 0 None true;
      Regex.Open 3; Regex.Rep Regex.dot 1 None true; Regex.Close 3;
      Regex.Eol].

(** The layout state: the document so far, the vertical cursor and the
    skills flag. *)
Record cursor := {
  ops : list op;
  y : Z;
  inSkillsSection : bool
}.

Section Layout.

Local Open Scope Z_scope.

(** The collaborators outside the repository: the font metrics of pdf-lib
    ([font.widthOfTextAtSize(text, size)]) and the case mappings of the
    JavaScript runtime. *)
Variable widthOfTextAtSize : font -> jstring -> Z -> Z.
Variable toUpperCase : jstring -> jstring.
Variable toLowerCase : jstring -> jstring.

(* ------------------------------------------------------------------ *)
(** *** wrapText *)

(** One round of the loop over the words: the state is [(lines, currentLine)]. *)
Definition wrap_step (f : font) (size maxWidth : Z)
    (st : list jstring * jstring) (word : jstring) : list jstring * jstring :=
  let '(lines, currentLine) := st in
  let testLine :=
    if truthy currentLine then currentLine ++ [SPACE] ++ word else word in
  let testWidth := widthOfTextAtSize f testLine size in
  if (maxWidth <? testWidth) && truthy currentLine
  then (lines ++ [currentLine], word)
  else (lines, testLine).

Definition wrapText (text : jstring) (f : font) (size maxWidth : Z)
  : list jstring :=
  let words := JsString.split SPACE text in
  let '(lines, currentLine) :=
    fold_left (wrap_step f size maxWidth) words ([], []) in
  if truthy currentLine then lines ++ [currentLine] else lines.

(* ------------------------------------------------------------------ *)
(** *** drawTextWithBold *)

(** One round of the loop over the parts: the state is the operations drawn
    so far with [offsetX]. *)
Definition bold_step (y : Z) (f fontBold : font) (size : Z) (c : color)
    (st : list op * Z) (part : jstring) : list op * Z :=
  let '(drawn, offsetX) := st in
  if startsWith part (js "**") && endsWith part (js "**") then
    let content := slice_2_m2 part in
    (drawn ++ [DrawText content offsetX y size fontBold c],
     offsetX + widthOfTextAtSize fontBold content size)
  else
    (drawn ++ [DrawText part offsetX y size f c],
     offsetX + widthOfTextAtSize f part size).

(** The texts drawn on the page, in order. *)
Definition drawTextWithBold (text : jstring) (x y : Z) (f fontBold : font)
    (size : Z) (c : color) : list op :=
  let parts := Regex.split re_bold 1 text in
  fst (fold_left (bold_step y f fontBold size c) parts ([], x)).

(* ------------------------------------------------------------------ *)
(** *** generateResumePdf *)

Definition new_page : op := AddPage PAGE_WIDTH PAGE_HEIGHT.

(** [if (y < MARGIN_BOTTOM) { page = pdfDoc.addPage(...); y = PAGE_HEIGHT - MARGIN_TOP; }] *)
Definition roll (st : cursor) : cursor :=
  if y st <? MARGIN_BOTTOM
  then {| ops := ops st ++ [new_page];
          y := PAGE_HEIGHT - MARGIN_TOP;
          inSkillsSection := inSkillsSection st |}
  else st.

Definition advance (d : Z) (st : cursor) : cursor :=
  {| ops := ops st; y := y st - d; inSkillsSection := inSkillsSection st |}.

Definition emit (drawn : list op) (st : cursor) : cursor :=
  {| ops := ops st ++ drawn; y := y st; inSkillsSection := inSkillsSection st |}.

(** The loop every body block runs over its wrapped lines: draw at the
    cursor, move the cursor down by [height], then add a page when the
    cursor has left the page. *)
Definition flow (draw : jstring -> Z -> list op) (height : Z)
    (lines : list jstring) (st : cursor) : cursor :=
  fold_left (fun st line => roll (advance height (emit (draw line (y st)) st)))
            lines st.

(** The loops of the name and of the contact line: no page check. *)
Definition stack (draw : jstring -> Z -> list op) (height : Z)
    (lines : list jstring) (st : cursor) : cursor :=
  fold_left (fun st line => advance height (emit (draw line (y st)) st))
            lines st.

Definition text_at (x size : Z) (f : font) (c : color)
    (line : jstring) (y : Z) : list op :=
  [DrawText line x y size f c].

(** The job entry block: title, company and period. *)
Definition job_entry (jobTitle companyName period : jstring) (st : cursor)
  : cursor :=
  let st := advance (pt 8) st in
  let titleLines :=
    wrapText (trim jobTitle) HelveticaBold (BODY_SIZE + pt 1)
             (CONTENT_WIDTH - pt 10) in
  let st := flow (text_at (left + pt 10) (BODY_SIZE + pt 1) HelveticaBold
                          MEDIUM_BLUE)
                 (BODY_LINE_HEIGHT + pt 2) titleLines st in
  let companyLines :=
    wrapText (trim companyName) Helvetica BODY_SIZE (CONTENT_WIDTH - pt 10) in
  let st := flow (text_at (left + pt 10) BODY_SIZE Helvetica GRAY)
                 BODY_LINE_HEIGHT companyLines st in
  let formattedPeriod := formatDate (trim period) in
  let periodLines :=
    wrapText formattedPeriod Helvetica (BODY_SIZE - pt 1)
             (CONTENT_WIDTH - pt 10) in
  let st := flow (text_at (left + pt 10) (BODY_SIZE - pt 1) Helvetica GRAY)
                 (BODY_LINE_HEIGHT - pt 2) periodLines st in
  advance (pt 4) st.

(** The section header block. *)
Definition section_header (line : jstring) (st : cursor) : cursor :=
  let st := advance (pt 12) st in
  let sectionLines :=
    wrapText line HelveticaBold SECTION_HEADER_SIZE CONTENT_WIDTH in
  let st := flow (text_at left SECTION_HEADER_SIZE HelveticaBold DARK_BLUE)
                 SECTION_LINE_HEIGHT sectionLines st in
  if JsString.eqb (toLowerCase line) (js "skills:")
  then {| ops := ops st; y := y st; inSkillsSection := true |}
  else st.

(** The skills category block. *)
Definition skills_category (line : jstring) (st : cursor) : cursor :=
  let categoryName := trim line in
  let categoryLines :=
    wrapText categoryName HelveticaBold (BODY_SIZE + pt 1)
             (CONTENT_WIDTH - pt 20) in
  flow (text_at (left + pt 10) (BODY_SIZE + pt 1) HelveticaBold MEDIUM_BLUE)
       (BODY_LINE_HEIGHT + pt 2) categoryLines st.

(** The regular body text block. *)
Definition plain_body (line : jstring) (st : cursor) : cursor :=
  let wrappedLines :=
    wrapText line Helvetica BODY_SIZE (CONTENT_WIDTH - pt 10) in
  flow (fun wrappedLine y =>
          drawTextWithBold wrappedLine (left + pt 10) y Helvetica
                           HelveticaBold BODY_SIZE BLACK)
       BODY_LINE_HEIGHT wrappedLines st.

(** The branches of one round of the body loop on a non-blank [line],
    before the page check that ends the round. *)
Definition body_block (line : jstring) (st : cursor) : cursor :=
  if endsWith line (js ":") then section_header line st
  else
    let isJobExperience := Regex.test re_job_test line in
    if isJobExperience then
      match Regex.exec re_job 3 line with
      | Some m => job_entry (nth 1 m []) (nth 2 m []) (nth 3 m []) st
      | None => st
      end
    else
      let isSkillsCategory := startsWith line (js "·") in
      if isSkillsCategory then skills_category line st
      else plain_body line st.

(** One round of the loop over [bodyLines]; a blank line leaves the round
    with [continue], before the page check. *)
Definition body_line (st : cursor) (raw : jstring) : cursor :=
  let line := trim raw in
  if negb (truthy line) then advance (pt 6) st
  else roll (body_block line st).

Definition layoutBody (body : jstring) (st : cursor) : cursor :=
  fold_left body_line (JsString.split LF body) st.

(** [[location, phone, email, linkedin].filter(Boolean)] *)
Definition filter_Boolean (l : list (option jstring)) : list jstring :=
  flat_map (fun v => match v with
                     | Some s => if truthy s then [s] else []
                     | None => []
                     end) l.

(** Everything before the body loop: first page, name, contact line, rule. *)
Definition layoutHeader (r : resume) : cursor :=
  let st := {| ops := [new_page]; y := PAGE_HEIGHT - MARGIN_TOP;
               inSkillsSection := false |} in
  let without_name := advance NAME_LINE_HEIGHT st in
  let st :=
    match name r with
    | Some name =>
      if truthy name then
        let nameLines :=
          wrapText (toUpperCase name) HelveticaBold NAME_SIZE CONTENT_WIDTH in
        advance (pt 2)
          (stack (text_at left NAME_SIZE HelveticaBold DARK_BLUE)
                 NAME_LINE_HEIGHT nameLines st)
      else without_name
    | None => without_name
    end in
  let contactParts :=
    filter_Boolean [location r; phone r; email r; linkedin r] in
  let st :=
    if (0 <? length contactParts)%nat then
      let contactLine := join (js " • ") contactParts in
      let contactLines :=
        wrapText contactLine Helvetica CONTACT_SIZE CONTENT_WIDTH in
      advance (pt 4)
        (stack (text_at left CONTACT_SIZE Helvetica DARK_GRAY)
               CONTACT_LINE_HEIGHT contactLines st)
    else st in
  let st := emit [DrawLine left (y st) right (y st) 1500 DARK_BLUE] st in
  advance (pt 16) st.

(** The skills block after the loop; [skills] is never filled. *)
Definition layoutSkills (st : cursor) : cursor :=
  let skills : list jstring := [] in
  if inSkillsSection st && (0 <? length skills)%nat then
    let skillsText := join (js " ") skills in
    let wrappedSkillLines :=
      wrapText skillsText Helvetica BODY_SIZE (CONTENT_WIDTH - pt 20) in
    flow (text_at (left + pt 20) BODY_SIZE Helvetica DARK_GRAY)
         BODY_LINE_HEIGHT wrappedSkillLines st
  else st.

(** The finished document, as the operations that built it. *)
Definition generateResumePdf (resumeText : jstring) : list op :=
  let r := parseResume resumeText in
  ops (layoutSkills (layoutBody (body r) (layoutHeader r))).

End Layout.

(** A sample of the collaborators, for evaluating the program: a fixed-pitch
    font of 600/1000 em per code unit in both weights (the metrics of the
    standard Courier fonts) and the case mappings on the ASCII letters. *)
Module Sample.

Definition widthOfTextAtSize (f : font) (text : jstring) (size : Z) : Z :=
  (600 * Z.of_nat (length text) * size / 1000)%Z.

Definition toUpperCase (s : jstring) : jstring :=
  map (fun c => if (N.leb 97 c && N.leb c 122) then (c - 32)%N else c) s.

Definition toLowerCase (s : jstring) : jstring :=
  map (fun c => if (N.leb 65 c && N.leb c 90) then (c + 32)%N else c) s.

Definition wrapText := wrapText widthOfTextAtSize.
Definition drawTextWithBold := drawTextWithBold widthOfTextAtSize.
Definition plain_body := plain_body widthOfTextAtSize.
Definition body_line := body_line widthOfTextAtSize toLowerCase.
Definition generateResumePdf :=
  generateResumePdf widthOfTextAtSize toUpperCase toLowerCase.

End Sample.


(* ================================================================== *)
(** ** The file name of the response (POST) *)
(* ================================================================== *)

(** The rounds of [input.replace(re, replacement)] for a pattern with the
    [g] flag and a replacement without [$]: [next] is the end of the last
    match, [from] the index the search goes on at (one past an empty
    match).  Every round moves [from] forward, hence a fuel of the length
    plus two bounds the rounds. *)
Fixpoint replace_loop (fuel : nat) (re : Regex.regex)
    (replacement input : jstring) (next from : nat) : jstring :=
  match fuel with
  | O => skipn next input
  | S fuel' =>
    if Nat.ltb (length input) from then skipn next input
    else
      match Regex.search re (skipn from input) from with
      | None => skipn next input
      | Some (b, e, _) =>
        Regex.substring input next b ++ replacement
          ++ replace_loop fuel' re replacement input e
               (if Nat.eqb e b then S e else e)
      end
  end.

Definition replaceAll (re : Regex.regex) (replacement input : jstring)
  : jstring :=
  replace_loop (length input + 2) re replacement input 0 0.

(** The class [[a-zA-Z0-9_]]. *)
Definition is_word (c : N) : bool :=
  (N.leb 97 c && N.leb c 122) || (N.leb 65 c && N.leb c 90)
  || (N.leb 48 c && N.leb c 57) || N.eqb c 95.

(** The pattern [[^a-zA-Z0-9_]] with the [g] flag. *)
Definition re_unsafe : Regex.regex := [Regex.Chr (fun c => negb (is_word c))].

(** [fileBase]: the fixed prefix, the company and the role, every unit of
    the two outside the class replaced by an underscore. *)
Definition fileBase (company role : jstring) : jstring :=
  js "Zain_Abdeen_" ++ replaceAll re_unsafe (js "_") company
    ++ js "_" ++ replaceAll re_unsafe (js "_") role.

(** The value of the [Content-Disposition] header; 34 is the double
    quote. *)
Definition contentDisposition (company role : jstring) : jstring :=
  js "attachment; filename=" ++ [34%N] ++ fileBase company role
    ++ js ".pdf" ++ [34%N].
(* ================================================================== *)
(** ** Vocabulary of the specification *)
(* ================================================================== *)

(** A line is non-blank when something is left of it after trimming. *)
Definition nonblank (l : jstring) : bool := truthy (trim l).

(** The lines from the non-blank line number [k] on (counting from 0);
    nothing when there are not that many non-blank lines. *)
Fixpoint from_nonblank (k : nat) (ls : list jstring) : list jstring :=
  match ls with
  | [] => []
  | l :: r =>
    if nonblank l
    then match k with O => l :: r | S k' => from_nonblank k' r end
    else from_nonblank k r
  end.

(** The header fields in the order of the destructuring. *)
Definition header_fields (r : resume) : list (option jstring) :=
  [headline r; name r; email r; phone r; location r; linkedin r].

(** The texts drawn by a sequence of operations, each with its font. *)
Fixpoint drawn (l : list op) : list (jstring * font) :=
  match l with
  | [] => []
  | DrawText text _ _ _ f _ :: r => (text, f) :: drawn r
  | _ :: r => drawn r
  end.

(** The pieces of a text between units of the class [sep]. *)
Fixpoint split_where (sep : N -> bool) (s : jstring) : list jstring :=
  match s with
  | [] => [[]]
  | c :: r =>
    if sep c then [] :: split_where sep r
    else match split_where sep r with
         | h :: t => (c :: h) :: t
         | [] => [[c]]
         end
  end.

(** The whitespace-delimited words of a text. *)
Definition ws_words (text : jstring) : list jstring :=
  filter truthy (split_where is_space text).

(** The words [wrapText] works on: the non-empty pieces between U+0020. *)
Definition space_words (text : jstring) : list jstring :=
  filter truthy (JsString.split SPACE text).

(** A bold span: two asterisks, one or more units other than an asterisk,
    two asterisks. *)
Definition bold_span (text : jstring) : Prop :=
  exists pre mid post,
    text = pre ++ js "**" ++ mid ++ js "**" ++ post
    /\ mid <> [] /\ ~ In ASTERISK mid.

(** All the substrings of a text. *)
Fixpoint prefixes (s : jstring) : list jstring :=
  match s with
  | [] => [[]]
  | c :: r => [] :: map (cons c) (prefixes r)
  end.

Fixpoint substrings (s : jstring) : list jstring :=
  match s with
  | [] => [[]]
  | _ :: r => prefixes s ++ substrings r
  end.

(** A date text of unrecognized shape: no part of it, however cut out, has
    the shape of two digits, a slash and four digits. *)
Definition unrecognized (dateStr : jstring) : bool :=
  forallb (fun t => negb (Regex.test re_mm_yyyy t)) (substrings dateStr).

(** The tokens [formatDate] cuts a text with dashes into. *)
Definition date_parts (dateStr : jstring) : list jstring :=
  map trim (Regex.split re_dash 0 dateStr).

(** The page-roll invariant on a sequence of operations: every text is drawn
    at or above the bottom margin, or right after a page was added.
    [fresh] tells whether the operation before was [AddPage]. *)
Fixpoint roll_invariant (fresh : bool) (l : list op) : bool :=
  match l with
  | [] => true
  | AddPage _ _ :: r => roll_invariant true r
  | DrawText _ _ y _ _ _ :: r =>
    ((MARGIN_BOTTOM <=? y)%Z || fresh) && roll_invariant false r
  | DrawLine _ _ _ _ _ _ :: r => roll_invariant false r
  end.

(** A decision procedure for [bold_span]: is there a span right at the front
    of [s], or further on. *)
Fixpoint skip_non_asterisk (s : jstring) : jstring :=
  match s with
  | c :: r => if N.eqb c ASTERISK then s else skip_non_asterisk r
  | [] => []
  end.

Definition span_here (s : jstring) : bool :=
  match s with
  | 42%N :: 42%N :: c :: r =>
    negb (N.eqb c ASTERISK) && startsWith (skip_non_asterisk r) (js "**")
  | _ => false
  end.

Fixpoint has_bold_span (s : jstring) : bool :=
  span_here s || match s with [] => false | _ :: r => has_bold_span r end.

(** A text on which the page flow goes wrong: a line [X], 112 blank lines
    and a line [B]. *)
Definition overflow_input : jstring := js "X" ++ repeat LF 113 ++ js "B".

(** A line fits when its measured width is at most [maxWidth]. *)
Definition fits (widthOfTextAtSize : font -> jstring -> Z -> Z) (f : font)
    (size maxWidth : Z) (line : jstring) : Prop :=
  (widthOfTextAtSize f line size <= maxWidth)%Z.

(** A line as the wrapper builds one: a first non-empty word, then words
    appended behind a space as long as the line still fits. *)
Inductive packed (widthOfTextAtSize : font -> jstring -> Z -> Z) (f : font)
    (size maxWidth : Z) : jstring -> Prop :=
| packed_word (w : jstring) :
    w <> [] -> ~ In SPACE w -> packed widthOfTextAtSize f size maxWidth w
| packed_snoc (line w : jstring) :
    packed widthOfTextAtSize f size maxWidth line ->
    ~ In SPACE w ->
    fits widthOfTextAtSize f size maxWidth (line ++ SPACE :: w) ->
    packed widthOfTextAtSize f size maxWidth (line ++ SPACE :: w).

(** A line that passes the loose job test and fails the three-group
    pattern: a carriage return inside the title, which the class [.] of the
    pattern cannot cross from the start of the line. *)
Definition broken_job_line : jstring :=
  js "Lead" ++ [CR] ++ js "Dev at Acme: 2020".

(* ================================================================== *)
(** ** Further vocabulary *)
(* ================================================================== *)

(** A returned line was closed by force when some word of the text, put
    behind it after a space, measures more than [maxWidth]. *)
Definition forced (widthOfTextAtSize : font -> jstring -> Z -> Z) (f : font)
    (size maxWidth : Z) (text line : jstring) : Prop :=
  exists w, In w (JsString.split SPACE text)
            /\ (maxWidth < widthOfTextAtSize f (line ++ SPACE :: w) size)%Z.

(** The class of the splitter of [formatDate]: en dash or hyphen. *)
Definition is_dash (c : N) : bool := N.eqb c EN_DASH || N.eqb c HYPHEN.

(** A hyphen turned into an en dash, any other unit kept. *)
Definition to_en_dash (c : N) : N := if N.eqb c HYPHEN then EN_DASH else c.

(** The value of two decimal digits. *)
Definition two_digits (d1 d2 : N) : Z :=
  (10 * (Z.of_N d1 - 48) + (Z.of_N d2 - 48))%Z.

(** What [formatDate] prints for month number [m]: the name of the month,
    or [undefined] outside 1..12. *)
Definition month_label (m : Z) : jstring :=
  if ((1 <=? m) && (m <=? 12))%Z
  then nth (Z.to_nat (m - 1)) monthNames []
  else js "undefined".

(** The shape [formatDate] rewrites: two digits, a slash, four digits. *)
Definition is_mm_yyyy (part : jstring) : bool :=
  match part with
  | [d1; d2; s; y1; y2; y3; y4] =>
    is_digit d1 && is_digit d2 && N.eqb SLASH s
    && is_digit y1 && is_digit y2 && is_digit y3 && is_digit y4
  | _ => false
  end.

(** The decimal digits. *)
Definition digits : list N := [48; 49; 50; 51; 52; 53; 54; 55; 56; 57]%N.

(** What a label printed for a month is like: it starts with a unit that is
    neither white space nor a digit, and it holds no dash. *)
Definition label_ok (label : jstring) : bool :=
  match label with
  | c :: _ =>
    negb (is_space c) && negb (is_digit c) && negb (existsb is_dash label)
  | [] => false
  end.

(** What [formatDate] joins: a part without dash, trimmed, and left alone
    by [format_part]. *)
Definition settled_part (q : jstring) : Prop :=
  existsb is_dash q = false /\ trim q = q /\ format_part q = q.

(** Runs drawn side by side from [x] on: every run is a text at the height
    [y], in the size and colour given and in one of the two fonts, and it
    starts where the run before it ends. *)
Fixpoint runs_from (widthOfTextAtSize : font -> jstring -> Z -> Z)
    (f fontBold : font) (x y size : Z) (c : color) (l : list op) : Prop :=
  match l with
  | [] => True
  | DrawText text x' y' size' f' c' :: r =>
    x' = x /\ y' = y /\ size' = size /\ c' = c
    /\ (f' = f \/ f' = fontBold)
    /\ runs_from widthOfTextAtSize f fontBold
                 (x + widthOfTextAtSize f' text size)%Z y size c r
  | _ :: _ => False
  end.

(** An operation that keeps to the page: a text at or above the bottom
    margin, or anything that is not a text. *)
Definition on_page (o : op) : Prop :=
  match o with
  | DrawText _ _ y _ _ _ => (MARGIN_BOTTOM <= y)%Z
  | _ => True
  end.

(** A page of the fixed geometry, or anything that is not a page. *)
Definition a4_page (o : op) : Prop :=
  match o with
  | AddPage width height => width = PAGE_WIDTH /\ height = PAGE_HEIGHT
  | _ => True
  end.

(** A unit made safe for the file name. *)
Definition safe_unit (c : N) : N := if is_word c then c else 95%N.

(* ================================================================== *)
(** ** Splitting and joining *)
(* ================================================================== *)

Lemma split_nonempty (sep : N) (s : jstring) : JsString.split sep s <> [].
Proof.
  destruct s as [|c r]; simpl; [discriminate|].
  destruct (N.eqb c sep); [discriminate|].
  destruct (JsString.split sep r); discriminate.
Qed.

Lemma split_no_sep (sep : N) (s : jstring) :
  Forall (fun w => ~ In sep w) (JsString.split sep s).
Proof.
  induction s as [|c r IH]; simpl.
  - constructor; [intros []|constructor].
  - destruct (N.eqb_spec c sep) as [->|Hne].
    + constructor; [intros []|exact IH].
    + destruct (JsString.split sep r) as [|h t]; simpl.
      * constructor; [|constructor]. intros [H|[]]; congruence.
      * inversion IH; subst. constructor; [|assumption].
        intros [H|H]; [congruence|contradiction].
Qed.

Lemma split_app_sep (sep : N) (w rest : jstring) :
  ~ In sep w ->
  JsString.split sep (w ++ sep :: rest) = w :: JsString.split sep rest.
Proof.
  induction w as [|c w IH]; simpl; intros Hw.
  - now rewrite N.eqb_refl.
  - destruct (N.eqb_spec c sep) as [->|Hne]; [exfalso; auto|].
    rewrite IH by tauto. reflexivity.
Qed.

Lemma split_word (sep : N) (w : jstring) :
  ~ In sep w -> JsString.split sep w = [w].
Proof.
  induction w as [|c w IH]; simpl; intros Hw; [reflexivity|].
  destruct (N.eqb_spec c sep) as [->|Hne]; [exfalso; auto|].
  rewrite IH by tauto. reflexivity.
Qed.

Lemma split_join (sep : N) (xs : list jstring) :
  xs <> [] -> Forall (fun w => ~ In sep w) xs ->
  JsString.split sep (join [sep] xs) = xs.
Proof.
  induction xs as [|x r IH]; intros Hne Hall; [congruence|].
  inversion Hall as [|? ? Hx Hr]; subst.
  destruct r as [|x' r'].
  - simpl. now apply split_word.
  - change (join [sep] (x :: x' :: r')) with (x ++ sep :: join [sep] (x' :: r')).
    rewrite split_app_sep by assumption.
    rewrite IH; [reflexivity|discriminate|assumption].
Qed.

(* ================================================================== *)
(** ** parseResume: the header extractor *)
(* ================================================================== *)

Lemma skip_blank_spec (rest : list jstring) (b : nat) :
  (b <= skip_blank rest b)%nat /\
  skipn (skip_blank rest b - b) rest = from_nonblank 0 rest.
Proof.
  revert b. induction rest as [|l r IH]; intros b; simpl.
  - split; [lia|]. now rewrite Nat.sub_diag.
  - unfold nonblank. destruct (truthy (trim l)).
    + split; [lia|]. now rewrite Nat.sub_diag.
    + destruct (IH (S b)) as [Hle Heq]. split; [lia|].
      replace (skip_blank r (S b) - b)%nat with (S (skip_blank r (S b) - S b)) by lia.
      exact Heq.
Qed.

Lemma body_after (lines : list jstring) (b : nat) :
  skipn (skip_blank (skipn b lines) b) lines = from_nonblank 0 (skipn b lines).
Proof.
  destruct (skip_blank_spec (skipn b lines) b) as [Hle Heq].
  rewrite <- Heq, skipn_skipn. f_equal. lia.
Qed.

Local Arguments Nat.sub : simpl never.

Lemma header_scan_full (ls : list jstring) :
  forall idx info,
    (length info < 6)%nat ->
    (6 <= length info + length (filter nonblank ls))%nat ->
    exists k,
      header_scan ls idx info
        = (info ++ firstn (6 - length info) (map trim (filter nonblank ls)),
           (idx + S k)%nat)
      /\ from_nonblank 0 (skipn (S k) ls) = from_nonblank (6 - length info) ls.
Proof.
  induction ls as [|l r IH]; intros idx info Hlt Hge; simpl in *; [lia|].
  unfold nonblank in *. destruct (truthy (trim l)) eqn:Hl; simpl in *.
  - rewrite length_app; simpl.
    destruct (Nat.eqb_spec (length info + 1) 6) as [H6|H6].
    + exists 0%nat. replace (6 - length info)%nat with 1%nat by lia. simpl.
      split; [f_equal; lia|].
      destruct r; reflexivity.
    + destruct (IH (S idx) (info ++ [trim l])) as [k [Hk Hs]];
        try (rewrite length_app; simpl; lia).
      exists (S k). rewrite Hk. rewrite length_app in *; simpl in *.
      replace (6 - length info)%nat with (S (6 - (length info + 1))) by lia.
      simpl. rewrite <- app_assoc. simpl. split; [f_equal; lia|].
      exact Hs.
  - destruct (Nat.eqb_spec (length info) 6) as [H6|H6]; [lia|].
    destruct (IH (S idx) info Hlt Hge) as [k [Hk Hs]].
    exists (S k). rewrite Hk. split; [f_equal; lia|].
    replace (6 - length info)%nat with (S (5 - length info)) in * by lia.
    exact Hs.
Qed.

Lemma header_scan_short (ls : list jstring) :
  forall idx info,
    (length info + length (filter nonblank ls) < 6)%nat ->
    header_scan ls idx info = (info ++ map trim (filter nonblank ls), 0%nat).
Proof.
  induction ls as [|l r IH]; intros idx info Hlt; simpl in *.
  - now rewrite app_nil_r.
  - unfold nonblank in *. destruct (truthy (trim l)) eqn:Hl; simpl in *.
    + rewrite length_app; simpl.
      destruct (Nat.eqb_spec (length info + 1) 6) as [H6|H6]; [lia|].
      rewrite IH by (rewrite length_app; simpl; lia).
      now rewrite <- app_assoc.
    + destruct (Nat.eqb_spec (length info) 6) as [H6|H6]; [lia|].
      now apply IH.
Qed.

Lemma nth_error_firstn_6 (l : list jstring) (i : nat) :
  (6 <= length l)%nat -> (i < 6)%nat ->
  nth_error (firstn 6 l) i = Some (nth i l []).
Proof.
  intros Hl Hi.
  destruct l as [|a [|b [|c [|d [|e [|f r]]]]]]; simpl in Hl; try lia.
  do 6 (destruct i as [|i]; [reflexivity|]). lia.
Qed.

Lemma filter_from_nonblank_0 (ls : list jstring) :
  filter nonblank (from_nonblank 0 ls) = filter nonblank ls.
Proof.
  induction ls as [|l r IH]; simpl; [reflexivity|].
  destruct (nonblank l) eqn:Hl; simpl; [now rewrite Hl|exact IH].
Qed.

Lemma from_nonblank_0_nonempty (ls : list jstring) :
  filter nonblank ls <> [] -> from_nonblank 0 ls <> [].
Proof.
  intros H E. apply H. rewrite <- filter_from_nonblank_0, E. reflexivity.
Qed.

Lemma from_nonblank_no_sep (sep : N) (k : nat) (ls : list jstring) :
  Forall (fun w => ~ In sep w) ls ->
  Forall (fun w => ~ In sep w) (from_nonblank k ls).
Proof.
  revert k. induction ls as [|l r IH]; intros k H; simpl; [constructor|].
  inversion H; subst.
  destruct (nonblank l); [destruct k|]; auto.
Qed.

(** C7.  When the text has at least six non-blank lines, [parseResume]
    returns the first six of them, trimmed, as headline, name, email, phone,
    location and linkedin in this order, whatever blank lines surround or
    separate them, and the body is the text from the seventh non-blank line
    on (empty when there is none). *)
Theorem parseResume_six_lines (resumeText : jstring) :
  let lines := JsString.split LF resumeText in
  let nb := map trim (filter nonblank lines) in
  (6 <= length nb)%nat ->
  headline (parseResume resumeText) = Some (nth 0 nb [])
  /\ name (parseResume resumeText) = Some (nth 1 nb [])
  /\ email (parseResume resumeText) = Some (nth 2 nb [])
  /\ phone (parseResume resumeText) = Some (nth 3 nb [])
  /\ location (parseResume resumeText) = Some (nth 4 nb [])
  /\ linkedin (parseResume resumeText) = Some (nth 5 nb [])
  /\ body (parseResume resumeText) = join [LF] (from_nonblank 6 lines).
Proof.
  intros lines nb H6. unfold parseResume. fold lines.
  destruct (header_scan_full lines 0 []) as [k [Hk Hs]].
  - simpl; lia.
  - simpl. unfold nb in H6. now rewrite length_map in H6.
  - rewrite Hk. cbv beta iota zeta.
    cbn [headline name email phone location linkedin body Nat.add app length].
    rewrite body_after, Hs. fold nb. rewrite Nat.sub_0_r.
    repeat split; apply nth_error_firstn_6; solve [exact H6|lia].
Qed.

Lemma parseResume_six_lines_witness :
  let r := parseResume (js "
Engineer
  Ada  

ada@x.org
555
London
in/ada

  Summary:
text") in
  headline r = Some (js "Engineer") /\ linkedin r = Some (js "in/ada")
  /\ body r = js "  Summary:
text".
Proof.
  cbv zeta.
  destruct (parseResume_six_lines (js "
Engineer
  Ada  

ada@x.org
555
London
in/ada

  Summary:
text")) as (H1 & _ & _ & _ & _ & H6 & Hb).
  - vm_compute. lia.
  - rewrite H1, H6, Hb. vm_compute. repeat split.
Defined.

(** C10.  When the text has at least one and fewer than six non-blank
    lines, [bodyStart] stays 0: the body is the text from its first
    non-blank line on, and the header fields are read off the very lines
    the body starts with. *)
Theorem parseResume_short_header (resumeText : jstring) :
  let lines := JsString.split LF resumeText in
  let r := parseResume resumeText in
  (1 <= length (filter nonblank lines) < 6)%nat ->
  body r = join [LF] (from_nonblank 0 lines)
  /\ JsString.split LF (body r) = from_nonblank 0 lines
  /\ forall i, (i < 6)%nat ->
       nth i (header_fields r) None
       = nth_error (map trim (filter nonblank (JsString.split LF (body r)))) i.
Proof.
  intros lines r [H1 H6]. unfold r, parseResume. fold lines.
  rewrite header_scan_short by (simpl; lia). simpl app.
  cbv beta iota zeta. unfold header_fields. cbn [headline name email phone location linkedin body].
  rewrite body_after. cbn [skipn].
  assert (Hsplit : JsString.split LF (join [LF] (from_nonblank 0 lines))
                   = from_nonblank 0 lines).
  { apply split_join.
    - apply from_nonblank_0_nonempty. intros E. rewrite E in H1. simpl in H1. lia.
    - apply from_nonblank_no_sep, split_no_sep. }
  rewrite Hsplit, filter_from_nonblank_0.
  repeat split.
  intros i Hi. do 6 (destruct i as [|i]; [reflexivity|]). lia.
Qed.

Lemma parseResume_short_header_witness :
  let r := parseResume (js "
Engineer
  Ada  
") in
  body r = js "Engineer
  Ada  
" /\ headline r = Some (js "Engineer") /\ name r = Some (js "Ada").
Proof.
  cbv zeta.
  destruct (parseResume_short_header (js "
Engineer
  Ada  
")) as (Hb & _ & Hf).
  - vm_compute. lia.
  - split; [rewrite Hb; vm_compute; reflexivity|].
    split; [exact (Hf 0%nat ltac:(lia))|exact (Hf 1%nat ltac:(lia))].
Defined.

(* ================================================================== *)
(** ** wrapText: the greedy wrapper *)
(* ================================================================== *)

Lemma fold_left_invariant {A B : Type} (step : A -> B -> A) (P : A -> Prop)
    (l : list B) :
  forall a, P a -> (forall a b, In b l -> P a -> P (step a b)) ->
            P (fold_left step l a).
Proof.
  induction l as [|b l IH]; intros a Ha Hstep; simpl; [exact Ha|].
  apply IH; [apply Hstep; [now left|exact Ha]|].
  intros a' b' Hin; apply Hstep; now right.
Qed.

Lemma truthy_true (s : jstring) : truthy s = true <-> s <> [].
Proof. destruct s; simpl; split; congruence. Qed.

Lemma truthy_false (s : jstring) : truthy s = false <-> s = [].
Proof. destruct s; simpl; split; congruence. Qed.

Lemma split_snoc (sep : N) (w : jstring) :
  ~ In sep w ->
  forall l, JsString.split sep (l ++ sep :: w) = JsString.split sep l ++ [w].
Proof.
  intros Hw. induction l as [|c l IH]; simpl.
  - rewrite N.eqb_refl. now rewrite split_word.
  - destruct (N.eqb_spec c sep) as [->|Hne]; rewrite IH; [reflexivity|].
    destruct (JsString.split sep l) eqn:E; [|reflexivity].
    now apply split_nonempty in E.
Qed.

Section Wrapping.

Variable widthOfTextAtSize : font -> jstring -> Z -> Z.
Variable f : font.
Variables size maxWidth : Z.

Local Notation "'step'" := (wrap_step widthOfTextAtSize f size maxWidth).
Local Notation "'wrap' text" :=
  (wrapText widthOfTextAtSize text f size maxWidth)
  (at level 10, text at level 9).
Local Notation "'fitting'" := (fits widthOfTextAtSize f size maxWidth).
Local Notation "'packed_line'" := (packed widthOfTextAtSize f size maxWidth).

Lemma wrap_step_fits (lines : list jstring) (cur word : jstring) :
  (word <> [] -> fitting word) ->
  Forall fitting lines -> (cur = [] \/ fitting cur) ->
  Forall fitting (fst (step (lines, cur) word))
  /\ (snd (step (lines, cur) word) = [] \/ fitting (snd (step (lines, cur) word))).
Proof.
  intros Hw Hl Hc. unfold wrap_step.
  destruct (truthy cur) eqn:Ht.
  - destruct (Z.ltb_spec maxWidth
                (widthOfTextAtSize f (cur ++ [SPACE] ++ word) size)) as [Hwide|Hok];
      simpl.
    + split.
      * apply Forall_app; split; [exact Hl|].
        constructor; [|constructor].
        destruct Hc as [->|Hc]; [discriminate|exact Hc].
      * destruct word; [now left|right; apply Hw; discriminate].
    + split; [exact Hl|right; exact Hok].
  - rewrite andb_false_r. simpl. split; [exact Hl|].
    destruct word; [now left|right; apply Hw; discriminate].
Qed.

Lemma wrapText_fits (text : jstring) :
  (forall w, In w (space_words text) -> fitting w) ->
  Forall fitting (wrap text).
Proof.
  intros Hwords. unfold wrapText.
  pose (P := fun st : list jstring * jstring =>
               Forall fitting (fst st) /\ (snd st = [] \/ fitting (snd st))).
  assert (HP : P (fold_left step (JsString.split SPACE text) ([], []))).
  { apply fold_left_invariant.
    - split; [constructor|now left].
    - intros [lines cur] w Hin [Hl Hc].
      apply wrap_step_fits; [|exact Hl|exact Hc].
      intros Hne. apply Hwords. unfold space_words.
      apply filter_In. split; [exact Hin|now apply truthy_true]. }
  destruct (fold_left step (JsString.split SPACE text) ([], [])) as [lines cur].
  destruct HP as [Hl Hc]; simpl in *.
  destruct (truthy cur) eqn:Ht; [|exact Hl].
  apply Forall_app; split; [exact Hl|].
  constructor; [|constructor].
  destruct Hc as [->|Hc]; [discriminate|exact Hc].
Qed.

Lemma packed_nonempty (line : jstring) : packed_line line -> line <> [].
Proof.
  intros H; inversion H; subst; [assumption|]. now destruct line0.
Qed.

Lemma wrap_step_packed (lines : list jstring) (cur word : jstring) :
  ~ In SPACE word ->
  Forall packed_line lines -> (cur = [] \/ packed_line cur) ->
  Forall packed_line (fst (step (lines, cur) word))
  /\ (snd (step (lines, cur) word) = []
      \/ packed_line (snd (step (lines, cur) word))).
Proof.
  intros Hw Hl Hc. unfold wrap_step.
  assert (Hword : word = [] \/ packed_line word).
  { destruct word; [now left|right; apply packed_word; [discriminate|exact Hw]]. }
  destruct (truthy cur) eqn:Ht.
  - assert (Hcur : packed_line cur) by (destruct Hc as [->|Hc]; [discriminate|exact Hc]).
    destruct (Z.ltb_spec maxWidth
                (widthOfTextAtSize f (cur ++ [SPACE] ++ word) size)) as [Hwide|Hok];
      simpl.
    + split; [|exact Hword].
      apply Forall_app; split; [exact Hl|]. now constructor.
    + split; [exact Hl|right]. now apply packed_snoc.
  - rewrite andb_false_r. simpl. split; [exact Hl|exact Hword].
Qed.

Lemma wrapText_packed (text : jstring) : Forall packed_line (wrap text).
Proof.
  unfold wrapText.
  pose (P := fun st : list jstring * jstring =>
               Forall packed_line (fst st) /\ (snd st = [] \/ packed_line (snd st))).
  assert (HP : P (fold_left step (JsString.split SPACE text) ([], []))).
  { apply fold_left_invariant.
    - split; [constructor|now left].
    - intros [lines cur] w Hin [Hl Hc].
      apply wrap_step_packed; [|exact Hl|exact Hc].
      pose proof (split_no_sep SPACE text) as Hall.
      rewrite Forall_forall in Hall. now apply Hall. }
  destruct (fold_left step (JsString.split SPACE text) ([], [])) as [lines cur].
  destruct HP as [Hl Hc]; simpl in *.
  destruct (truthy cur) eqn:Ht; [|exact Hl].
  apply Forall_app; split; [exact Hl|].
  constructor; [|constructor].
  destruct Hc as [->|Hc]; [discriminate|exact Hc].
Qed.

(** Replaying the loop on a packed line rebuilds it without a flush. *)
Lemma packed_replay (line : jstring) :
  packed_line line ->
  fold_left step (JsString.split SPACE line) ([], []) = ([], line).
Proof.
  induction 1 as [w Hne Hw|line w Hp IH Hw Hfit].
  - rewrite split_word by exact Hw. simpl.
    unfold wrap_step. simpl. now rewrite andb_false_r.
  - rewrite split_snoc by exact Hw.
    rewrite fold_left_app, IH. simpl.
    unfold wrap_step.
    apply packed_nonempty, truthy_true in Hp. rewrite Hp.
    unfold fits in Hfit. simpl app.
    destruct (Z.ltb_spec maxWidth
                (widthOfTextAtSize f (line ++ SPACE :: w) size)); [lia|].
    reflexivity.
Qed.

Lemma wrapText_packed_line (line : jstring) :
  packed_line line -> wrap line = [line].
Proof.
  intros Hp. unfold wrapText.
  rewrite packed_replay by exact Hp.
  apply packed_nonempty, truthy_true in Hp. now rewrite Hp.
Qed.

(** A text whose first unit is not a space: the first line of its wrapping
    starts with that unit. *)
Lemma wrapText_first_unit (c : N) (rest : jstring) :
  c <> SPACE ->
  exists first more, wrap (c :: rest) = (c :: first) :: more.
Proof.
  intros Hc. unfold wrapText.
  pose (P := fun st : list jstring * jstring =>
               match fst st with
               | (c' :: _) :: _ => c' = c
               | [] :: _ => False
               | [] => exists t, snd st = c :: t
               end).
  assert (Hsplit : exists h t, JsString.split SPACE (c :: rest) = (c :: h) :: t).
  { simpl. destruct (N.eqb_spec c SPACE) as [E|_]; [contradiction|].
    destruct (JsString.split SPACE rest) as [|h t] eqn:E; eauto. }
  destruct Hsplit as [h [t Hsplit]]. rewrite Hsplit. cbn [fold_left].
  assert (Hfirst : step ([], []) (c :: h) = ([], c :: h)).
  { unfold wrap_step. simpl. now rewrite andb_false_r. }
  rewrite Hfirst.
  assert (HP : P (fold_left step t ([], c :: h))).
  { apply fold_left_invariant.
    - unfold P; simpl; eauto.
    - intros [lines cur] w _ HPa. unfold P in HPa |- *. cbn [fst snd] in HPa.
      unfold wrap_step.
      destruct lines as [|[|c' l0] lines'].
      + destruct HPa as [t' ->]. cbn [truthy]. rewrite andb_true_r.
        destruct (maxWidth <? widthOfTextAtSize f _ size)%Z; cbn;
          [reflexivity|eexists; reflexivity].
      + contradiction.
      + destruct ((maxWidth <? widthOfTextAtSize f _ size)%Z && truthy cur);
          cbn; exact HPa. }
  destruct (fold_left step t ([], c :: h)) as [lines cur].
  unfold P in HP; simpl in HP.
  destruct lines as [|[|c' l0] lines'].
  - destruct HP as [t' ->]. simpl. eauto.
  - contradiction.
  - subst c'. destruct (truthy cur); simpl; eauto.
Qed.

End Wrapping.

(** C5, as amended.  When [maxWidth] is at least the measured width of every
    word of the text, a word being a non-empty piece between two U+0020
    units as [text.split(' ')] yields them, every line [wrapText] returns
    has a measured width of at most [maxWidth]. *)
Theorem wrapText_lines_fit
    (widthOfTextAtSize : font -> jstring -> Z -> Z)
    (text : jstring) (f : font) (size maxWidth : Z) :
  (forall w, In w (space_words text) ->
             (widthOfTextAtSize f w size <= maxWidth)%Z) ->
  forall line, In line (wrapText widthOfTextAtSize text f size maxWidth) ->
               (widthOfTextAtSize f line size <= maxWidth)%Z.
Proof.
  intros Hwords line Hin.
  pose proof (wrapText_fits widthOfTextAtSize f size maxWidth text Hwords) as H.
  rewrite Forall_forall in H. exact (H line Hin).
Qed.

Lemma wrapText_lines_fit_witness :
  (Sample.widthOfTextAtSize Helvetica (js "ab cd") 10000 <= 30000)%Z.
Proof.
  apply (wrapText_lines_fit Sample.widthOfTextAtSize (js "ab cd ef")
                            Helvetica 10000 30000).
  - intros w Hw. vm_compute in Hw.
    destruct Hw as [<-|[<-|[<-|[]]]]; vm_compute; discriminate.
  - vm_compute. now left.
Defined.

(** C5, as stated, fails: a tab delimits words but [wrapText] splits on
    U+0020 only, so two narrow words joined by a tab stay one wide line. *)
Lemma wrapText_tab_word_overflows :
  ~ (forall (widthOfTextAtSize : font -> jstring -> Z -> Z)
            (text : jstring) (f : font) (size maxWidth : Z),
        (forall w, In w (ws_words text) ->
                   (widthOfTextAtSize f w size <= maxWidth)%Z) ->
        forall line, In line (wrapText widthOfTextAtSize text f size maxWidth) ->
                     (widthOfTextAtSize f line size <= maxWidth)%Z).
Proof.
  intros H.
  specialize (H Sample.widthOfTextAtSize (js "a" ++ [9%N] ++ js "b")
                Helvetica 10000%Z 6000%Z).
  assert (Hw : forall w, In w (ws_words (js "a" ++ [9%N] ++ js "b")) ->
                         (Sample.widthOfTextAtSize Helvetica w 10000 <= 6000)%Z).
  { intros w Hw. vm_compute in Hw.
    destruct Hw as [<-|[<-|[]]]; vm_compute; discriminate. }
  specialize (H Hw (js "a" ++ [9%N] ++ js "b")).
  apply H; [vm_compute; now left|]. vm_compute. reflexivity.
Qed.

(** C6.  Every line [wrapText] returns is returned unchanged, alone, when
    wrapped again with the same font, size and [maxWidth]. *)
Theorem wrapText_idempotent
    (widthOfTextAtSize : font -> jstring -> Z -> Z)
    (text : jstring) (f : font) (size maxWidth : Z) (line : jstring) :
  In line (wrapText widthOfTextAtSize text f size maxWidth) ->
  wrapText widthOfTextAtSize line f size maxWidth = [line].
Proof.
  intros Hin. apply wrapText_packed_line.
  pose proof (wrapText_packed widthOfTextAtSize f size maxWidth text) as H.
  rewrite Forall_forall in H. exact (H line Hin).
Qed.

Lemma wrapText_idempotent_witness :
  Sample.wrapText (js "ab cd") Helvetica 10000 30000 = [js "ab cd"].
Proof.
  apply (wrapText_idempotent Sample.widthOfTextAtSize (js "ab cd ef gh")
                             Helvetica 10000 30000).
  vm_compute. now left.
Defined.

(* ================================================================== *)
(** ** The matcher on the patterns of the program *)
(* ================================================================== *)

Lemma rep_sound {R : Type} (p : N -> bool) (greedy : bool)
    (k : jstring -> nat -> option R) (s : jstring) :
  forall min max pos r,
    Regex.rep p greedy k min max s pos = Some r ->
    exists taken rest,
      s = taken ++ rest
      /\ Forall (fun c => p c = true) taken
      /\ (min <= length taken)%nat
      /\ k rest (pos + length taken)%nat = Some r.
Proof.
  induction s as [|c s IH]; intros min max pos r H.
  - destruct min as [|m]; simpl in H; [|discriminate].
    exists [], []. simpl. rewrite Nat.add_0_r.
    split; [reflexivity|split; [constructor|split; [lia|]]].
    destruct greedy; [exact H|].
    destruct (k [] pos); [exact H|discriminate].
  - destruct min as [|m]; simpl in H.
    + assert (Hmore :
        (if p c && Regex.allows max
         then Regex.rep p greedy k 0 (Regex.dec max) s (S pos) else None)
          = Some r ->
        exists taken rest,
          c :: s = taken ++ rest
          /\ Forall (fun c => p c = true) taken
          /\ (0 <= length taken)%nat
          /\ k rest (pos + length taken)%nat = Some r).
      { intros Hm. destruct (p c) eqn:Hp; [|discriminate].
        destruct (Regex.allows max); [|discriminate]. simpl in Hm.
        destruct (IH _ _ _ _ Hm) as (taken & rest & -> & Hall & _ & Hk).
        exists (c :: taken), rest. simpl.
        split; [reflexivity|split; [now constructor|split; [lia|]]].
        now rewrite Nat.add_succ_r. }
      assert (Hstop : k (c :: s) pos = Some r ->
        exists taken rest,
          c :: s = taken ++ rest
          /\ Forall (fun c => p c = true) taken
          /\ (0 <= length taken)%nat
          /\ k rest (pos + length taken)%nat = Some r).
      { intros Hk. exists [], (c :: s). simpl. rewrite Nat.add_0_r.
        split; [reflexivity|split; [constructor|split; [lia|exact Hk]]]. }
      destruct greedy.
      * destruct (if p c && Regex.allows max
                  then Regex.rep p true k 0 (Regex.dec max) s (S pos)
                  else None) eqn:E.
        -- exact (Hmore H).
        -- exact (Hstop H).
      * destruct (k (c :: s) pos) eqn:E.
        -- exact (Hstop H).
        -- exact (Hmore H).
    + destruct (p c) eqn:Hp; [|discriminate].
      destruct (IH _ _ _ _ H) as (taken & rest & -> & Hall & Hlen & Hk).
      exists (c :: taken), rest. simpl.
      split; [reflexivity|split; [now constructor|split; [lia|]]].
      now rewrite Nat.add_succ_r.
Qed.

(** A match of the bold pattern at the front of [s] is a bold span there. *)
Lemma match_bold_sound (s : jstring) (q : nat) (res : nat * Regex.mstate) :
  Regex.match_at re_bold s q = Some res ->
  exists mid post,
    s = js "**" ++ mid ++ js "**" ++ post /\ mid <> [] /\ ~ In ASTERISK mid.
Proof.
  unfold Regex.match_at, re_bold. cbn [Regex.run]. intros H.
  destruct s as [|c1 s]; [discriminate|].
  destruct (N.eqb_spec ASTERISK c1) as [<-|]; [|discriminate].
  destruct s as [|c2 s]; [discriminate|].
  destruct (N.eqb_spec ASTERISK c2) as [<-|]; [|discriminate].
  apply rep_sound in H.
  destruct H as (mid & rest & -> & Hall & Hlen & Hk).
  destruct rest as [|d1 rest]; [discriminate|].
  destruct (N.eqb_spec ASTERISK d1) as [<-|]; [|discriminate].
  destruct rest as [|d2 post]; [discriminate|].
  destruct (N.eqb_spec ASTERISK d2) as [<-|]; [|discriminate].
  exists mid, post. repeat split.
  - intros ->. simpl in Hlen. lia.
  - intros Hin. rewrite Forall_forall in Hall.
    specialize (Hall _ Hin). now rewrite N.eqb_refl in Hall.
Qed.

Lemma split_loop_no_match (re : Regex.regex) (n : nat) (input : jstring) :
  (forall q, Regex.match_at re (skipn q input) q = None) ->
  forall fuel q, Regex.split_loop fuel re n input 0 q = [input].
Proof.
  intros Hnone. induction fuel as [|fuel IH]; intros q; simpl; [reflexivity|].
  destruct (Nat.ltb q (length input)); [|reflexivity].
  rewrite Hnone. apply IH.
Qed.

Lemma split_no_match (re : Regex.regex) (n : nat) (input : jstring) :
  (forall q, Regex.match_at re (skipn q input) q = None) ->
  Regex.split re n input = [input].
Proof.
  intros Hnone. unfold Regex.split. destruct input as [|c r].
  - pose proof (Hnone 0%nat) as H0. cbn [skipn] in H0. now rewrite H0.
  - now apply split_loop_no_match.
Qed.

Lemma no_span_no_match (text : jstring) :
  ~ bold_span text ->
  forall q, Regex.match_at re_bold (skipn q text) q = None.
Proof.
  intros Hno q.
  destruct (Regex.match_at re_bold (skipn q text) q) as [res|] eqn:E;
    [|reflexivity].
  exfalso. apply Hno.
  destruct (match_bold_sound _ _ _ E) as (mid & post & Hs & Hne & Hmid).
  exists (firstn q text), mid, post. repeat split; try assumption.
  rewrite <- Hs. symmetry. apply firstn_skipn.
Qed.

Lemma skip_non_asterisk_app (mid rest : jstring) :
  ~ In ASTERISK mid ->
  skip_non_asterisk (mid ++ ASTERISK :: rest) = ASTERISK :: rest.
Proof.
  induction mid as [|c mid IH]; intros Hno; simpl.
  - reflexivity.
  - destruct (N.eqb_spec c ASTERISK) as [->|_]; [exfalso; apply Hno; now left|].
    apply IH. intros Hin. apply Hno. now right.
Qed.

Lemma span_here_front (m : N) (mid post : jstring) :
  m <> ASTERISK -> ~ In ASTERISK mid ->
  span_here (ASTERISK :: ASTERISK :: m :: mid ++ ASTERISK :: ASTERISK :: post)
  = true.
Proof.
  intros Hm Hmid. unfold span_here. cbn [ASTERISK].
  fold ASTERISK. rewrite skip_non_asterisk_app by exact Hmid.
  apply N.eqb_neq in Hm. rewrite Hm. vm_compute. reflexivity.
Qed.

Lemma has_bold_span_complete (text : jstring) :
  bold_span text -> has_bold_span text = true.
Proof.
  intros (pre & mid & post & -> & Hne & Hno).
  induction pre as [|c pre IH].
  - destruct mid as [|m mid]; [congruence|].
    change (has_bold_span (ASTERISK :: ASTERISK :: m
                             :: mid ++ ASTERISK :: ASTERISK :: post) = true).
    cbn [has_bold_span]. rewrite span_here_front; [reflexivity| |].
    + intros ->. apply Hno. now left.
    + intros Hin. apply Hno. now right.
  - cbn [app has_bold_span]. rewrite IH. apply orb_true_r.
Qed.

(* ================================================================== *)
(** ** drawTextWithBold: inline bold runs *)
(* ================================================================== *)

(** C8, as amended.  A line without a bold span that does not both start
    and end with two asterisks is drawn as one run: the whole line, in the
    plain font, at the given position. *)
Theorem drawTextWithBold_no_span
    (widthOfTextAtSize : font -> jstring -> Z -> Z)
    (text : jstring) (x y : Z) (f fontBold : font) (size : Z) (c : color) :
  ~ bold_span text ->
  startsWith text (js "**") && endsWith text (js "**") = false ->
  drawTextWithBold widthOfTextAtSize text x y f fontBold size c
  = [DrawText text x y size f c].
Proof.
  intros Hno Hguard. unfold drawTextWithBold.
  rewrite (split_no_match re_bold 1 text (no_span_no_match text Hno)).
  cbn [fold_left]. unfold bold_step. rewrite Hguard. reflexivity.
Qed.

Lemma drawTextWithBold_no_span_witness :
  Sample.drawTextWithBold (js "2 ** 3 is *eight*") 60000 700000
                          Helvetica HelveticaBold 11000 BLACK
  = [DrawText (js "2 ** 3 is *eight*") 60000 700000 11000 Helvetica BLACK].
Proof.
  apply (drawTextWithBold_no_span Sample.widthOfTextAtSize).
  - intros H. apply has_bold_span_complete in H. vm_compute in H. discriminate.
  - vm_compute. reflexivity.
Defined.

(** C8, as stated, fails: a line without a bold span that starts and ends
    with two asterisks is drawn in the bold font, without its first and its
    last two units. *)
Lemma drawTextWithBold_unmatched_drawn_bold :
  ~ (forall (widthOfTextAtSize : font -> jstring -> Z -> Z)
            (text : jstring) (x y size : Z) (c : color),
        ~ bold_span text ->
        let runs := drawn (drawTextWithBold widthOfTextAtSize text x y
                             Helvetica HelveticaBold size c) in
        Forall (fun run => snd run = Helvetica) runs
        /\ concat (map fst runs) = text).
Proof.
  intros H.
  specialize (H Sample.widthOfTextAtSize (js "**a*b**")
                60000%Z 700000%Z 11000%Z BLACK).
  assert (Hno : ~ bold_span (js "**a*b**")).
  { intros Hs. apply has_bold_span_complete in Hs. vm_compute in Hs.
    discriminate. }
  destruct (H Hno) as [_ Htext]. vm_compute in Htext. discriminate.
Qed.

(* ================================================================== *)
(** ** formatDate: the date reformatter *)
(* ================================================================== *)

(** C3, as amended.  [formatDate] is a total function (no branch of it can
    throw: an out-of-range month prints as [undefined]).  A text without
    dash and not of the month/year shape is returned unchanged; a text with
    a dash none of whose tokens has that shape is returned as its trimmed
    tokens joined again by an en dash between spaces. *)
Theorem formatDate_unrecognized (dateStr : jstring) :
  (includes dateStr EN_DASH || includes dateStr HYPHEN = false ->
   Regex.test re_mm_yyyy dateStr = false ->
   formatDate dateStr = dateStr)
  /\ (includes dateStr EN_DASH || includes dateStr HYPHEN = true ->
      (forall part, In part (date_parts dateStr) ->
                    Regex.test re_mm_yyyy part = false) ->
      formatDate dateStr = join (js " – ") (date_parts dateStr)).
Proof.
  unfold formatDate. split.
  - intros -> ->. reflexivity.
  - intros -> Hparts. fold (date_parts dateStr). f_equal.
    rewrite <- (map_id (date_parts dateStr)) at 2.
    apply map_ext_in. intros part Hin.
    unfold format_part. now rewrite (Hparts part Hin).
Qed.

Lemma formatDate_unrecognized_witness :
  formatDate (js "Present") = js "Present"
  /\ formatDate (js "2020-Present") = js "2020 – Present".
Proof.
  split.
  - apply (proj1 (formatDate_unrecognized (js "Present")));
      vm_compute; reflexivity.
  - rewrite (proj2 (formatDate_unrecognized (js "2020-Present"))).
    + vm_compute. reflexivity.
    + vm_compute. reflexivity.
    + intros part Hin. vm_compute in Hin.
      destruct Hin as [<-|[<-|[]]]; vm_compute; reflexivity.
Defined.

(** C3, as stated, fails: a text with a dash is rebuilt around an en dash
    even when nothing in it has the month/year shape. *)
Lemma formatDate_rewrites_dash :
  ~ (forall dateStr, unrecognized dateStr = true ->
                     formatDate dateStr = dateStr).
Proof.
  intros H. specialize (H (js "2020-Present")).
  assert (Hu : unrecognized (js "2020-Present") = true)
    by (vm_compute; reflexivity).
  specialize (H Hu). vm_compute in H. discriminate.
Qed.

(* ================================================================== *)
(** ** The body loop: one line at a time *)
(* ================================================================== *)

Lemma trimStart_idempotent (s : jstring) : trimStart (trimStart s) = trimStart s.
Proof.
  induction s as [|c r IH]; simpl; [reflexivity|].
  destruct (is_space c) eqn:E; [exact IH|]. simpl. now rewrite E.
Qed.

Lemma trimStart_head (s : jstring) :
  trimStart s = [] \/ exists c r, trimStart s = c :: r /\ is_space c = false.
Proof.
  induction s as [|c r IH]; simpl; [now left|].
  destruct (is_space c) eqn:E; [exact IH|right; eauto].
Qed.

Lemma trimStart_snoc (a : jstring) (c : N) :
  is_space c = false -> trimStart (a ++ [c]) = trimStart a ++ [c].
Proof.
  intros Hc. induction a as [|d a IH]; simpl.
  - now rewrite Hc.
  - destruct (is_space d); [exact IH|reflexivity].
Qed.

Lemma trimEnd_cons (c : N) (s : jstring) :
  is_space c = false -> trimEnd (c :: s) = c :: trimEnd s.
Proof.
  intros Hc. unfold trimEnd. simpl rev.
  rewrite trimStart_snoc by exact Hc. rewrite rev_app_distr. reflexivity.
Qed.

Lemma trimEnd_idempotent (s : jstring) : trimEnd (trimEnd s) = trimEnd s.
Proof.
  unfold trimEnd. now rewrite rev_involutive, trimStart_idempotent.
Qed.

Lemma trim_idempotent (s : jstring) : trim (trim s) = trim s.
Proof.
  unfold trim. destruct (trimStart_head s) as [->|(c & r & -> & Hc)].
  - reflexivity.
  - rewrite trimEnd_cons by exact Hc. simpl trimStart. rewrite Hc.
    rewrite trimEnd_cons by exact Hc. now rewrite trimEnd_idempotent.
Qed.

Lemma drawn_app (a b : list op) : drawn (a ++ b) = drawn a ++ drawn b.
Proof.
  induction a as [|o a IH]; simpl; [reflexivity|].
  destruct o; simpl; now rewrite IH.
Qed.

Lemma roll_ops (st : cursor) :
  exists new, ops (roll st) = ops st ++ new /\ drawn new = [].
Proof.
  unfold roll. destruct (y st <? MARGIN_BOTTOM)%Z; simpl.
  - exists [new_page]. now split.
  - exists []. now rewrite app_nil_r.
Qed.

(** What a block draws: the texts of its lines, pages in between apart. *)
Lemma flow_drawn (draw : jstring -> Z -> list op)
    (texts : jstring -> list (jstring * font)) (height : Z) :
  (forall line y, drawn (draw line y) = texts line) ->
  forall lines st,
  exists new,
    ops (flow draw height lines st) = ops st ++ new
    /\ drawn new = flat_map texts lines.
Proof.
  intros Hdraw. induction lines as [|line lines IH]; intros st.
  - exists []. simpl. now rewrite app_nil_r.
  - unfold flow in *. cbn [fold_left].
    destruct (IH (roll (advance height (emit (draw line (y st)) st))))
      as (new & Hops & Hnew).
    destruct (roll_ops (advance height (emit (draw line (y st)) st)))
      as (page & Hroll & Hpage).
    exists (draw line (y st) ++ page ++ new). split.
    + rewrite Hops, Hroll. simpl. now rewrite <- !app_assoc.
    + rewrite !drawn_app, Hdraw, Hpage, Hnew. reflexivity.
Qed.

(** C9.  A line that starts with the middle dot, does not end with a colon
    and fails the job test is drawn as a skills category: the texts drawn
    are the wrapping of the whole trimmed line, in the bold font, and the
    first of them still starts with the middle dot. *)
Theorem skills_category_keeps_glyph
    (widthOfTextAtSize : font -> jstring -> Z -> Z)
    (toLowerCase : jstring -> jstring) (st : cursor) (raw : jstring) :
  let line := trim raw in
  let categoryLines :=
    wrapText widthOfTextAtSize line HelveticaBold (BODY_SIZE + pt 1)
             (CONTENT_WIDTH - pt 20) in
  endsWith line (js ":") = false ->
  Regex.test re_job_test line = false ->
  startsWith line (js "·") = true ->
  exists new first more,
    ops (body_line widthOfTextAtSize toLowerCase st raw) = ops st ++ new
    /\ drawn new = map (fun l => (l, HelveticaBold)) categoryLines
    /\ categoryLines = (MIDDLE_DOT :: first) :: more.
Proof.
  intros line categoryLines Hcolon Hjob Hdot.
  assert (Hline : exists rest, line = MIDDLE_DOT :: rest).
  { destruct line as [|c rest]; [discriminate|].
    change (js "·") with [MIDDLE_DOT] in Hdot. simpl in Hdot.
    destruct (N.eqb_spec c MIDDLE_DOT) as [->|]; [eauto|discriminate]. }
  destruct Hline as [rest Hline].
  destruct (wrapText_first_unit widthOfTextAtSize HelveticaBold
              (BODY_SIZE + pt 1) (CONTENT_WIDTH - pt 20) MIDDLE_DOT rest)
    as (first & more & Hwrap); [discriminate|].
  assert (Htruthy : truthy line = true) by (now rewrite Hline).
  assert (Htrim : trim line = line) by apply trim_idempotent.
  unfold body_line, body_block. cbv zeta. change (trim raw) with line.
  rewrite Htruthy, Hcolon, Hjob, Hdot. cbn [negb].
  unfold skills_category. cbv zeta. rewrite Htrim. fold categoryLines.
  destruct (flow_drawn
              (text_at (left + pt 10) (BODY_SIZE + pt 1) HelveticaBold MEDIUM_BLUE)
              (fun l => [(l, HelveticaBold)]) (BODY_LINE_HEIGHT + pt 2)
              (fun _ _ => eq_refl) categoryLines st)
    as (new & Hops & Hnew).
  destruct (roll_ops
              (flow (text_at (left + pt 10) (BODY_SIZE + pt 1) HelveticaBold
                             MEDIUM_BLUE)
                    (BODY_LINE_HEIGHT + pt 2) categoryLines st))
    as (page & Hroll & Hpage).
  exists (new ++ page), first, more. split; [|split].
  - rewrite Hroll, Hops. now rewrite app_assoc.
  - rewrite drawn_app, Hnew, Hpage, app_nil_r.
    clear. induction categoryLines as [|l ls IH]; simpl; [reflexivity|].
    now rewrite IH.
  - unfold categoryLines. rewrite Hline. exact Hwrap.
Qed.

Lemma skills_category_keeps_glyph_witness :
  exists new,
    ops (Sample.body_line
           {| ops := []; y := 700000; inSkillsSection := true |}
           (js "  · Frontend "))
    = new
    /\ drawn new = [(js "· Frontend", HelveticaBold)].
Proof.
  destruct (skills_category_keeps_glyph
              Sample.widthOfTextAtSize Sample.toLowerCase
              {| ops := []; y := 700000; inSkillsSection := true |}
              (js "  · Frontend "))
    as (new & first & more & Hops & Hnew & _);
    try (vm_compute; reflexivity).
  exists new. split; [exact Hops|]. rewrite Hnew. vm_compute. reflexivity.
Defined.

(** C2, as amended.  A non-blank line that does not end with a colon, passes
    the loose job test and fails the three-group pattern draws nothing: the
    round leaves the document and the cursor as they are and only runs the
    page check that ends every round. *)
Theorem job_test_without_match_draws_nothing
    (widthOfTextAtSize : font -> jstring -> Z -> Z)
    (toLowerCase : jstring -> jstring) (st : cursor) (raw : jstring) :
  let line := trim raw in
  truthy line = true ->
  endsWith line (js ":") = false ->
  Regex.test re_job_test line = true ->
  Regex.exec re_job 3 line = None ->
  body_line widthOfTextAtSize toLowerCase st raw = roll st.
Proof.
  intros line Hline Hcolon Htest Hexec.
  unfold body_line, body_block. fold line.
  rewrite Hline, Hcolon. cbn [negb]. cbv zeta. now rewrite Htest, Hexec.
Qed.

Lemma job_test_without_match_draws_nothing_witness :
  Sample.body_line {| ops := [new_page]; y := 700000; inSkillsSection := false |}
                   broken_job_line
  = {| ops := [new_page]; y := 700000; inSkillsSection := false |}.
Proof.
  unfold Sample.body_line.
  rewrite (job_test_without_match_draws_nothing
             Sample.widthOfTextAtSize Sample.toLowerCase);
    vm_compute; reflexivity.
Defined.

(** C2, as stated, fails: such a line is not drawn as regular body text. *)
Lemma job_test_without_match_not_plain_body :
  ~ (forall (widthOfTextAtSize : font -> jstring -> Z -> Z)
            (toLowerCase : jstring -> jstring) (st : cursor) (raw : jstring),
        let line := trim raw in
        truthy line = true ->
        endsWith line (js ":") = false ->
        Regex.test re_job_test line = true ->
        Regex.exec re_job 3 line = None ->
        body_line widthOfTextAtSize toLowerCase st raw
        = roll (plain_body widthOfTextAtSize line st)).
Proof.
  intros H.
  specialize (H Sample.widthOfTextAtSize Sample.toLowerCase
                {| ops := [new_page]; y := 700000; inSkillsSection := false |}
                broken_job_line).
  cbv zeta in H.
  assert (E : body_line Sample.widthOfTextAtSize Sample.toLowerCase
                {| ops := [new_page]; y := 700000; inSkillsSection := false |}
                broken_job_line
              = roll (plain_body Sample.widthOfTextAtSize (trim broken_job_line)
                        {| ops := [new_page]; y := 700000;
                           inSkillsSection := false |}))
    by (apply H; vm_compute; reflexivity).
  vm_compute in E. discriminate.
Qed.

(** C4.  The line [Role at Company: 06/2022 - Current] passes the job test
    and the three-group pattern gives the title [Role], the company
    [Company] and the period [06/2022 - Current], so that the round draws
    the job entry of these three; [formatDate] turns the period into
    [Jun 2022 – Current]. *)
Theorem job_line_scenario :
  let line := js "Role at Company: 06/2022 - Current" in
  endsWith line (js ":") = false
  /\ Regex.test re_job_test line = true
  /\ Regex.exec re_job 3 line
     = Some [line; js "Role"; js "Company"; js "06/2022 - Current"]
  /\ (forall widthOfTextAtSize toLowerCase st,
        body_block widthOfTextAtSize toLowerCase line st
        = job_entry widthOfTextAtSize (js "Role") (js "Company")
                    (js "06/2022 - Current") st)
  /\ formatDate (js "06/2022 - Current") = js "Jun 2022 – Current".
Proof.
  intros line.
  assert (Hcolon : endsWith line (js ":") = false) by (vm_compute; reflexivity).
  assert (Htest : Regex.test re_job_test line = true)
    by (vm_compute; reflexivity).
  assert (Hexec : Regex.exec re_job 3 line
                  = Some [line; js "Role"; js "Company"; js "06/2022 - Current"])
    by (vm_compute; reflexivity).
  split; [exact Hcolon|split; [exact Htest|split; [exact Hexec|split]]].
  - intros W low st. unfold body_block.
    rewrite Hcolon. cbv zeta. rewrite Htest, Hexec. reflexivity.
  - vm_compute. reflexivity.
Qed.

(* ================================================================== *)
(** ** generateResumePdf: the page flow *)
(* ================================================================== *)

Lemma includes_false (s : jstring) (c : N) :
  includes s c = false -> ~ In c s.
Proof.
  unfold includes. intros H Hin.
  assert (Ht : existsb (N.eqb c) s = true).
  { apply existsb_exists. exists c. split; [exact Hin|apply N.eqb_refl]. }
  congruence.
Qed.

(** A single word is its own wrapping, whatever the font says. *)
Lemma wrapText_word (widthOfTextAtSize : font -> jstring -> Z -> Z)
    (w : jstring) (f : font) (size maxWidth : Z) :
  truthy w = true -> includes w SPACE = false ->
  wrapText widthOfTextAtSize w f size maxWidth = [w].
Proof.
  intros Hne Hw. apply wrapText_packed_line.
  apply packed_word; [now apply truthy_true|now apply includes_false].
Qed.

(** A blank line moves the cursor down and skips the page check. *)
Lemma body_line_blank (widthOfTextAtSize : font -> jstring -> Z -> Z)
    (toLowerCase : jstring -> jstring) (st : cursor) :
  body_line widthOfTextAtSize toLowerCase st [] = advance (pt 6) st.
Proof. reflexivity. Qed.

Lemma body_lines_blank (widthOfTextAtSize : font -> jstring -> Z -> Z)
    (toLowerCase : jstring -> jstring) (n : nat) :
  forall st,
    fold_left (body_line widthOfTextAtSize toLowerCase) (repeat [] n) st
    = Nat.iter n (advance (pt 6)) st.
Proof.
  induction n as [|n IH]; intros st; [reflexivity|].
  cbn [repeat fold_left]. rewrite body_line_blank, IH.
  now rewrite Nat.iter_succ_r.
Qed.

Lemma fold_left_one {A B : Type} (f : A -> B -> A) (x : B) (a : A) :
  fold_left f [x] a = f a x.
Proof. reflexivity. Qed.

(** A line of one plain word, with no colon at its end, no job shape, no
    middle dot in front and nothing to split at, is drawn as one run at the
    cursor, whatever the font says. *)
Lemma body_line_word (widthOfTextAtSize : font -> jstring -> Z -> Z)
    (toLowerCase : jstring -> jstring) (st : cursor) (w : jstring) :
  trim w = w -> truthy w = true -> includes w SPACE = false ->
  endsWith w (js ":") = false ->
  Regex.test re_job_test w = false ->
  startsWith w (js "·") = false ->
  Regex.split re_bold 1 w = [w] ->
  startsWith w (js "**") && endsWith w (js "**") = false ->
  body_line widthOfTextAtSize toLowerCase st w
  = roll (roll (advance BODY_LINE_HEIGHT
                  (emit [DrawText w (left + pt 10) (y st) BODY_SIZE
                                  Helvetica BLACK] st))).
Proof.
  intros Htrim Hne Hw Hcolon Hjob Hdot Hsplit Hguard.
  unfold body_line, body_block. cbv zeta. rewrite Htrim.
  rewrite Hne, Hcolon, Hjob, Hdot. cbn [negb].
  unfold plain_body. cbv zeta.
  rewrite wrapText_word by assumption.
  unfold flow. cbn [fold_left]. unfold drawTextWithBold.
  rewrite Hsplit. cbn [fold_left]. unfold bold_step.
  rewrite Hguard. reflexivity.
Qed.

Lemma overflow_parse :
  parseResume overflow_input
  = {| headline := Some (js "X"); name := Some (js "B");
       email := None; phone := None; location := None;
       linkedin := None; body := overflow_input |}.
Proof. vm_compute. reflexivity. Qed.

Lemma overflow_lines :
  JsString.split LF overflow_input = [js "X"] ++ repeat [] 112 ++ [js "B"].
Proof. vm_compute. reflexivity. Qed.

Lemma overflow_header (widthOfTextAtSize : font -> jstring -> Z -> Z) :
  layoutHeader widthOfTextAtSize Sample.toUpperCase
    {| headline := Some (js "X"); name := Some (js "B");
       email := None; phone := None; location := None;
       linkedin := None; body := overflow_input |}
  = {| ops := [AddPage 595000 842000;
               DrawText (js "B") 50000 770000 24000 HelveticaBold DARK_BLUE;
               DrawLine 50000 748800 545000 748800 1500 DARK_BLUE];
       y := 732800; inSkillsSection := false |}.
Proof.
  unfold layoutHeader. cbv zeta.
  cbn [name location phone email linkedin].
  assert (Htruthy : truthy (js "B") = true) by (vm_compute; reflexivity).
  assert (Hupper : Sample.toUpperCase (js "B") = js "B")
    by (vm_compute; reflexivity).
  assert (Hcontact : filter_Boolean [None; None; None; None] = [])
    by reflexivity.
  rewrite Htruthy, Hupper, Hcontact. cbn [length Nat.ltb Nat.leb].
  rewrite (wrapText_word widthOfTextAtSize (js "B"))
    by (vm_compute; reflexivity).
  vm_compute. reflexivity.
Qed.

(** C1 fails on the code.  On [overflow_input], whatever the font metrics,
    the document is one page with the name, the rule and the line [X],
    then the line [B] drawn at 45.4pt, below the bottom margin of 50pt,
    on the same page: the blank lines before it moved the cursor down
    without a page check.  The page check after that draw adds the second
    page too late. *)
Theorem generateResumePdf_draws_below_margin
    (widthOfTextAtSize : font -> jstring -> Z -> Z)
    (toLowerCase : jstring -> jstring) :
  let document :=
    generateResumePdf widthOfTextAtSize Sample.toUpperCase toLowerCase
                      overflow_input in
  document
  = [AddPage 595000 842000;
     DrawText (js "B") 50000 770000 24000 HelveticaBold DARK_BLUE;
     DrawLine 50000 748800 545000 748800 1500 DARK_BLUE;
     DrawText (js "X") 60000 732800 11000 Helvetica BLACK;
     DrawText (js "B") 60000 45400 11000 Helvetica BLACK;
     AddPage 595000 842000]
  /\ roll_invariant false document = false.
Proof.
  cbv zeta.
  assert (Hdoc :
    generateResumePdf widthOfTextAtSize Sample.toUpperCase toLowerCase
                      overflow_input
    = [AddPage 595000 842000;
       DrawText (js "B") 50000 770000 24000 HelveticaBold DARK_BLUE;
       DrawLine 50000 748800 545000 748800 1500 DARK_BLUE;
       DrawText (js "X") 60000 732800 11000 Helvetica BLACK;
       DrawText (js "B") 60000 45400 11000 Helvetica BLACK;
       AddPage 595000 842000]).
  { unfold generateResumePdf.
    rewrite overflow_parse. cbn [body].
    rewrite overflow_header. unfold layoutBody.
    rewrite overflow_lines, !fold_left_app, !fold_left_one.
    rewrite body_lines_blank.
    rewrite (body_line_word widthOfTextAtSize toLowerCase _ (js "X"))
      by (vm_compute; reflexivity).
    rewrite body_line_word by (vm_compute; reflexivity).
    vm_compute. reflexivity. }
  rewrite Hdoc. split; [reflexivity|vm_compute; reflexivity].
Qed.

(* ================================================================== *)
(** ** wrapText: what the lines are made of *)
(* ================================================================== *)

Lemma packed_first_word (widthOfTextAtSize : font -> jstring -> Z -> Z)
    (f : font) (size maxWidth : Z) (line : jstring) :
  packed widthOfTextAtSize f size maxWidth line ->
  exists c rest ws,
    line = c :: rest /\ c <> SPACE
    /\ JsString.split SPACE line = (c :: ws) :: tl (JsString.split SPACE line).
Proof.
  induction 1 as [w Hne Hw|line w Hp IH Hw Hfit].
  - destruct w as [|c w]; [congruence|].
    exists c, w, w. split; [reflexivity|]. split.
    + intros ->. apply Hw. now left.
    + now rewrite split_word.
  - destruct IH as (c & rest & ws & -> & Hc & Hsplit).
    exists c, (rest ++ SPACE :: w), ws. split; [reflexivity|].
    split; [exact Hc|].
    change ((c :: rest) ++ SPACE :: w) with ((c :: rest) ++ SPACE :: w).
    rewrite (split_snoc SPACE w Hw (c :: rest)), Hsplit. reflexivity.
Qed.

(** X1.  No line [wrapText] returns is empty, and none starts with a
    space. *)
Theorem wrapText_lines_start_with_word
    (widthOfTextAtSize : font -> jstring -> Z -> Z)
    (text : jstring) (f : font) (size maxWidth : Z) (line : jstring) :
  In line (wrapText widthOfTextAtSize text f size maxWidth) ->
  exists c rest, line = c :: rest /\ c <> SPACE.
Proof.
  intros Hin.
  pose proof (wrapText_packed widthOfTextAtSize f size maxWidth text) as H.
  rewrite Forall_forall in H.
  destruct (packed_first_word _ _ _ _ _ (H line Hin))
    as (c & rest & _ & Hline & Hc & _).
  eauto.
Qed.

Lemma wrapText_lines_start_with_word_witness :
  exists c rest, js "cd" = c :: rest /\ c <> SPACE.
Proof.
  apply (wrapText_lines_start_with_word Sample.widthOfTextAtSize
           (js " ab   cd ") Helvetica 10000 12000).
  vm_compute. right. now left.
Defined.

Lemma space_words_word (w : jstring) :
  ~ In SPACE w -> space_words w = filter truthy [w].
Proof. intros Hw. unfold space_words. now rewrite split_word. Qed.

Lemma space_words_snoc (line w : jstring) :
  ~ In SPACE w ->
  space_words (line ++ SPACE :: w) = space_words line ++ filter truthy [w].
Proof.
  intros Hw. unfold space_words.
  now rewrite (split_snoc SPACE w Hw line), filter_app.
Qed.

Lemma wrap_step_words (widthOfTextAtSize : font -> jstring -> Z -> Z)
    (f : font) (size maxWidth : Z) (lines : list jstring) (cur w : jstring) :
  ~ In SPACE w ->
  let st := wrap_step widthOfTextAtSize f size maxWidth (lines, cur) w in
  flat_map space_words (fst st) ++ space_words (snd st)
  = (flat_map space_words lines ++ space_words cur) ++ filter truthy [w].
Proof.
  intros Hw. cbv zeta. unfold wrap_step.
  destruct (truthy cur) eqn:Ht.
  - rewrite andb_true_r.
    destruct (maxWidth <? _)%Z; cbn [fst snd].
    + rewrite flat_map_app. cbn [flat_map]. rewrite app_nil_r.
      now rewrite (space_words_word w Hw).
    + change (cur ++ [SPACE] ++ w) with (cur ++ SPACE :: w).
      rewrite (space_words_snoc cur w Hw). now rewrite app_assoc.
  - rewrite andb_false_r. cbn [fst snd].
    apply truthy_false in Ht. subst cur.
    change (space_words []) with (@nil jstring). rewrite app_nil_r.
    now rewrite (space_words_word w Hw).
Qed.

Lemma wrap_fold_words (widthOfTextAtSize : font -> jstring -> Z -> Z)
    (f : font) (size maxWidth : Z) (ws : list jstring) :
  Forall (fun w => ~ In SPACE w) ws ->
  forall lines cur,
    let st := fold_left (wrap_step widthOfTextAtSize f size maxWidth) ws
                        (lines, cur) in
    flat_map space_words (fst st) ++ space_words (snd st)
    = (flat_map space_words lines ++ space_words cur) ++ filter truthy ws.
Proof.
  induction 1 as [|w ws Hw Hws IH]; intros lines cur; cbv zeta.
  - cbn. now rewrite app_nil_r.
  - cbn [fold_left].
    destruct (wrap_step widthOfTextAtSize f size maxWidth (lines, cur) w)
      as [lines' cur'] eqn:E.
    specialize (IH lines' cur'). cbv zeta in IH. rewrite IH.
    pose proof (wrap_step_words widthOfTextAtSize f size maxWidth
                  lines cur w Hw) as Hstep.
    cbv zeta in Hstep. rewrite E in Hstep. cbn [fst snd] in Hstep.
    rewrite Hstep, <- app_assoc. f_equal.
    change (w :: ws) with ([w] ++ ws). now rewrite filter_app.
Qed.

Lemma wrapText_words
    (widthOfTextAtSize : font -> jstring -> Z -> Z)
    (text : jstring) (f : font) (size maxWidth : Z) :
  flat_map space_words (wrapText widthOfTextAtSize text f size maxWidth)
  = space_words text.
Proof.
  unfold wrapText.
  pose proof (wrap_fold_words widthOfTextAtSize f size maxWidth
                (JsString.split SPACE text) (split_no_sep SPACE text) [] [])
    as H.
  cbv zeta in H.
  set (st := fold_left (wrap_step widthOfTextAtSize f size maxWidth)
                       (JsString.split SPACE text) ([], [])).
  change (fold_left (wrap_step widthOfTextAtSize f size maxWidth)
                    (JsString.split SPACE text) ([], [])) with st in H.
  destruct st as [lines cur].
  cbn [fst snd] in H. change (space_words []) with (@nil jstring) in H.
  cbn [flat_map app] in H. fold (space_words text) in H. rewrite <- H.
  destruct (truthy cur) eqn:Ht.
  - rewrite flat_map_app. cbn [flat_map]. now rewrite app_nil_r.
  - apply truthy_false in Ht. subst cur.
    change (space_words []) with (@nil jstring). now rewrite app_nil_r.
Qed.

(** X2.  Wrapping loses no word and keeps the order: the words of the
    returned lines, read line after line, are the words of the text. *)
Theorem wrapText_keeps_words
    (widthOfTextAtSize : font -> jstring -> Z -> Z)
    (text : jstring) (f : font) (size maxWidth : Z) :
  flat_map space_words (wrapText widthOfTextAtSize text f size maxWidth)
  = space_words text.
Proof. apply wrapText_words. Qed.

(** X3.  [wrapText] returns no line exactly when the text has no word:
    when it is empty or made of spaces only. *)
Theorem wrapText_empty_iff
    (widthOfTextAtSize : font -> jstring -> Z -> Z)
    (text : jstring) (f : font) (size maxWidth : Z) :
  wrapText widthOfTextAtSize text f size maxWidth = []
  <-> space_words text = [].
Proof.
  rewrite <- (wrapText_words widthOfTextAtSize text f size maxWidth).
  split; [intros ->; reflexivity|].
  intros Hnone.
  pose proof (wrapText_packed widthOfTextAtSize f size maxWidth text) as Hp.
  destruct (wrapText widthOfTextAtSize text f size maxWidth) as [|line lines];
    [reflexivity|exfalso].
  inversion Hp as [|? ? Hline _]; subst.
  destruct (packed_first_word _ _ _ _ _ Hline)
    as (c & rest & ws & -> & _ & Hsplit).
  cbn [flat_map] in Hnone. apply app_eq_nil in Hnone.
  destruct Hnone as [Hnone _]. unfold space_words in Hnone.
  rewrite Hsplit in Hnone. discriminate.
Qed.

(** X4.  A returned line that measures more than [maxWidth] is a single
    word: it holds no space.  Only a word too wide on its own overflows. *)
Theorem wrapText_overflow_single_word
    (widthOfTextAtSize : font -> jstring -> Z -> Z)
    (text : jstring) (f : font) (size maxWidth : Z) (line : jstring) :
  In line (wrapText widthOfTextAtSize text f size maxWidth) ->
  (maxWidth < widthOfTextAtSize f line size)%Z ->
  ~ In SPACE line.
Proof.
  intros Hin Hwide.
  pose proof (wrapText_packed widthOfTextAtSize f size maxWidth text) as H.
  rewrite Forall_forall in H. specialize (H line Hin).
  inversion H as [w Hne Hw|l w Hp Hw Hfit]; subst; [exact Hw|].
  unfold fits in Hfit. lia.
Qed.

Lemma wrapText_overflow_single_word_witness :
  ~ In SPACE (js "abcdef").
Proof.
  apply (wrapText_overflow_single_word Sample.widthOfTextAtSize
           (js "ab abcdef cd") Helvetica 10000 30000).
  - vm_compute. right. now left.
  - vm_compute. reflexivity.
Defined.

Lemma wrap_step_forced (widthOfTextAtSize : font -> jstring -> Z -> Z)
    (f : font) (size maxWidth : Z) (text : jstring)
    (lines : list jstring) (cur w : jstring) :
  In w (JsString.split SPACE text) ->
  Forall (forced widthOfTextAtSize f size maxWidth text) lines ->
  Forall (forced widthOfTextAtSize f size maxWidth text)
         (fst (wrap_step widthOfTextAtSize f size maxWidth (lines, cur) w)).
Proof.
  intros Hw Hl. unfold wrap_step.
  destruct (truthy cur) eqn:Ht.
  - rewrite andb_true_r.
    destruct (Z.ltb_spec maxWidth
                (widthOfTextAtSize f (cur ++ [SPACE] ++ w) size))
      as [Hwide|_]; cbn [fst]; [|exact Hl].
    apply Forall_app. split; [exact Hl|].
    constructor; [|constructor]. exists w. now split.
  - rewrite andb_false_r. exact Hl.
Qed.

(** X5.  The wrapping is greedy: every returned line but the last was
    closed because some word of the text, put behind it after a space,
    measures more than [maxWidth]. *)
Theorem wrapText_breaks_forced
    (widthOfTextAtSize : font -> jstring -> Z -> Z)
    (text : jstring) (f : font) (size maxWidth : Z) (line : jstring) :
  In line (removelast (wrapText widthOfTextAtSize text f size maxWidth)) ->
  forced widthOfTextAtSize f size maxWidth text line.
Proof.
  unfold wrapText.
  assert (H : Forall (forced widthOfTextAtSize f size maxWidth text)
                (fst (fold_left (wrap_step widthOfTextAtSize f size maxWidth)
                        (JsString.split SPACE text) ([], [])))).
  { apply (fold_left_invariant
             (wrap_step widthOfTextAtSize f size maxWidth)
             (fun st => Forall (forced widthOfTextAtSize f size maxWidth text)
                               (fst st))).
    - constructor.
    - intros [lines cur] w Hin Hl. now apply wrap_step_forced. }
  revert H.
  destruct (fold_left (wrap_step widthOfTextAtSize f size maxWidth)
                      (JsString.split SPACE text) ([], [])) as [lines cur].
  cbn [fst]. intros H Hin. rewrite Forall_forall in H. apply H.
  destruct (truthy cur).
  - now rewrite removelast_last in Hin.
  - clear H. induction lines as [|l [|l' ls] IH]; cbn in Hin; try contradiction.
    destruct Hin as [<-|Hin]; [now left|right; now apply IH].
Qed.

Lemma wrapText_breaks_forced_witness :
  forced Sample.widthOfTextAtSize Helvetica 10000 30000
         (js "ab cd ef gh") (js "ab cd").
Proof.
  apply wrapText_breaks_forced. vm_compute. now left.
Defined.

(* ================================================================== *)
(** ** parseResume: edge cases and invariants *)
(* ================================================================== *)

Lemma join_split (sep : N) (s : jstring) :
  join [sep] (JsString.split sep s) = s.
Proof.
  induction s as [|c r IH]; [reflexivity|]. cbn [JsString.split].
  destruct (N.eqb_spec c sep) as [->|Hne].
  - destruct (JsString.split sep r) as [|h t] eqn:E;
      [now apply split_nonempty in E|].
    change (join [sep] ([] :: h :: t)) with (sep :: join [sep] (h :: t)).
    now rewrite IH.
  - destruct (JsString.split sep r) as [|h t] eqn:E;
      [now apply split_nonempty in E|].
    rewrite <- IH. destruct t; reflexivity.
Qed.

Lemma join_app_suffix (sep : jstring) (a b : list jstring) :
  exists pre, join sep (a ++ b) = pre ++ join sep b.
Proof.
  induction a as [|x a IH]; [now exists []|].
  destruct IH as [pre IH]. cbn [app].
  destruct (a ++ b) as [|y l] eqn:E.
  - apply app_eq_nil in E. destruct E as [_ ->].
    exists x. cbn. now rewrite app_nil_r.
  - exists (x ++ sep ++ pre).
    change (join sep (x :: y :: l)) with (x ++ sep ++ join sep (y :: l)).
    rewrite IH. now rewrite <- !app_assoc.
Qed.

Lemma in_firstn {A : Type} (n : nat) (l : list A) (x : A) :
  In x (firstn n l) -> In x l.
Proof.
  intros H. rewrite <- (firstn_skipn n l). apply in_or_app. now left.
Qed.

Lemma from_nonblank_none (k : nat) (ls : list jstring) :
  filter nonblank ls = [] -> from_nonblank k ls = [].
Proof.
  induction ls as [|l r IH]; [reflexivity|]. cbn.
  destruct (nonblank l); [discriminate|exact IH].
Qed.

Lemma from_nonblank_0_head (ls : list jstring) :
  from_nonblank 0 ls = []
  \/ exists l rest, from_nonblank 0 ls = l :: rest /\ nonblank l = true.
Proof.
  induction ls as [|l r IH]; [now left|]. cbn.
  destruct (nonblank l) eqn:E; [right; eauto|exact IH].
Qed.

(** The lines [info] collects: the first six non-blank lines, trimmed. *)
Lemma header_scan_info (ls : list jstring) :
  fst (header_scan ls 0 []) = firstn 6 (map trim (filter nonblank ls)).
Proof.
  destruct (Nat.le_gt_cases 6 (length (filter nonblank ls))) as [Hge|Hlt].
  - destruct (header_scan_full ls 0 []) as [k [Hk _]];
      [cbn; lia|cbn; lia|].
    rewrite Hk. reflexivity.
  - rewrite header_scan_short by (cbn; lia). cbn [fst app].
    symmetry. apply firstn_all2. rewrite length_map. lia.
Qed.

Lemma parseResume_fields (resumeText : jstring) (h : jstring) :
  In (Some h) (header_fields (parseResume resumeText)) ->
  In h (firstn 6 (map trim
                    (filter nonblank (JsString.split LF resumeText)))).
Proof.
  unfold parseResume, header_fields.
  rewrite <- header_scan_info.
  destruct (header_scan (JsString.split LF resumeText) 0 []) as [info bs].
  cbn [fst headline name email phone location linkedin].
  intros Hin. repeat (destruct Hin as [Hin|Hin];
                      [now apply nth_error_In in Hin|]).
  contradiction.
Qed.

Lemma parseResume_body (resumeText : jstring) :
  exists b,
    body (parseResume resumeText)
    = join [LF] (from_nonblank 0 (skipn b (JsString.split LF resumeText))).
Proof.
  unfold parseResume.
  destruct (header_scan (JsString.split LF resumeText) 0 []) as [info bs].
  exists bs. cbn [body]. now rewrite body_after.
Qed.

(** X6.  A text without a non-blank line gives no header field and an
    empty body: [parseResume] does not fail on an empty or blank input. *)
Theorem parseResume_blank (resumeText : jstring) :
  filter nonblank (JsString.split LF resumeText) = [] ->
  header_fields (parseResume resumeText)
  = [None; None; None; None; None; None]
  /\ body (parseResume resumeText) = [].
Proof.
  intros Hblank. unfold parseResume.
  rewrite header_scan_short by (rewrite Hblank; cbn; lia).
  rewrite Hblank. cbn [map app]. unfold header_fields.
  cbn [headline name email phone location linkedin body nth_error].
  split; [reflexivity|].
  rewrite body_after. cbn [skipn].
  now rewrite from_nonblank_none.
Qed.

Lemma parseResume_blank_witness :
  body (parseResume (js "
   
")) = [].
Proof.
  apply parseResume_blank. vm_compute. reflexivity.
Defined.

(** X7.  Every header field [parseResume] returns is a trimmed, non-empty
    string. *)
Theorem parseResume_fields_trimmed (resumeText : jstring) (h : jstring) :
  In (Some h) (header_fields (parseResume resumeText)) ->
  truthy h = true /\ trim h = h.
Proof.
  intros Hin. apply parseResume_fields in Hin.
  apply in_firstn, in_map_iff in Hin.
  destruct Hin as (l & <- & Hl). apply filter_In in Hl.
  destruct Hl as [_ Hl]. split; [exact Hl|apply trim_idempotent].
Qed.

Lemma parseResume_fields_trimmed_witness :
  truthy (js "Ada") = true /\ trim (js "Ada") = js "Ada".
Proof.
  apply (parseResume_fields_trimmed (js "Engineer
   Ada  
")).
  vm_compute. right. now left.
Defined.

(** X8.  The body is a suffix of the text [parseResume] is given: nothing
    after the header is rewritten or dropped. *)
Theorem parseResume_body_suffix (resumeText : jstring) :
  exists pre, resumeText = pre ++ body (parseResume resumeText).
Proof.
  unfold parseResume.
  destruct (header_scan (JsString.split LF resumeText) 0 []) as [info bs].
  cbn [body].
  set (k := skip_blank (skipn bs (JsString.split LF resumeText)) bs).
  destruct (join_app_suffix [LF] (firstn k (JsString.split LF resumeText))
                            (skipn k (JsString.split LF resumeText)))
    as [pre Hpre].
  exists pre. rewrite <- Hpre, firstn_skipn. symmetry. apply join_split.
Qed.

(** X9.  The body is empty or starts with a non-blank line: the blank lines
    between header and body are never part of it. *)
Theorem parseResume_body_starts_nonblank (resumeText : jstring) :
  body (parseResume resumeText) = []
  \/ exists l rest,
       JsString.split LF (body (parseResume resumeText)) = l :: rest
       /\ nonblank l = true.
Proof.
  destruct (parseResume_body resumeText) as [b ->].
  destruct (from_nonblank_0_head (skipn b (JsString.split LF resumeText)))
    as [->|(l & rest & Hl & Hnb)]; [now left|right].
  exists l, rest. split; [|exact Hnb].
  rewrite <- Hl. apply split_join.
  - rewrite Hl. discriminate.
  - apply from_nonblank_no_sep.
    pose proof (split_no_sep LF resumeText) as Hall.
    rewrite <- (firstn_skipn b) in Hall.
    now apply Forall_app in Hall.
Qed.

(* ================================================================== *)
(** ** Splitting on a one-unit class *)
(* ================================================================== *)

Lemma split_where_nonempty (sep : N -> bool) (s : jstring) :
  split_where sep s <> [].
Proof.
  destruct s as [|c r]; cbn; [discriminate|].
  destruct (sep c); [discriminate|].
  destruct (split_where sep r); discriminate.
Qed.

Lemma skipn_length_app {A : Type} (a b : list A) :
  skipn (length a) (a ++ b) = b.
Proof. induction a; [reflexivity|assumption]. Qed.

Lemma firstn_length_app {A : Type} (a b : list A) :
  firstn (length a) (a ++ b) = a.
Proof. induction a as [|x a IH]; [reflexivity|cbn; now rewrite IH]. Qed.

(** The loop of [split] on a pattern of one class: [pre] is the text
    before the last separator, [mid] the piece being read, [suf] what is
    left to read. *)
Lemma split_loop_class (cls : N -> bool) (suf : jstring) :
  forall (pre mid : jstring) (fuel : nat),
    (length suf < fuel)%nat ->
    Regex.split_loop fuel [Regex.Chr cls] 0 (pre ++ mid ++ suf)
                     (length pre) (length pre + length mid)
    = match split_where cls suf with
      | h :: t => (mid ++ h) :: t
      | [] => []
      end.
Proof.
  induction suf as [|c s IH]; intros pre mid fuel Hfuel;
    (destruct fuel as [|fuel]; [cbn in Hfuel; lia|]);
    cbn [Regex.split_loop].
  - rewrite app_nil_r, length_app, Nat.ltb_irrefl.
    cbn [split_where]. now rewrite skipn_length_app, app_nil_r.
  - assert (Hlt : Nat.ltb (length pre + length mid)
                          (length (pre ++ mid ++ c :: s)) = true).
    { apply Nat.ltb_lt. rewrite !length_app. cbn. lia. }
    rewrite Hlt.
    assert (Hskip : skipn (length pre + length mid) (pre ++ mid ++ c :: s)
                    = c :: s).
    { rewrite app_assoc, <- length_app. apply skipn_length_app. }
    rewrite Hskip. unfold Regex.match_at. cbn [Regex.run split_where].
    cbn in Hfuel.
    destruct (cls c) eqn:Hc.
    + assert (Hmin : Nat.min (S (length pre + length mid))
                             (length (pre ++ mid ++ c :: s))
                     = S (length pre + length mid)).
      { apply Nat.min_l. rewrite !length_app. cbn. lia. }
      rewrite Hmin.
      assert (Hne : Nat.eqb (S (length pre + length mid)) (length pre) = false)
        by (apply Nat.eqb_neq; lia).
      rewrite Hne. cbn [seq map app].
      assert (Hsub : Regex.substring (pre ++ mid ++ c :: s) (length pre)
                                     (length pre + length mid) = mid).
      { unfold Regex.substring. rewrite skipn_length_app.
        replace (length pre + length mid - length pre)%nat
          with (length mid) by lia.
        apply firstn_length_app. }
      rewrite Hsub, app_nil_r. f_equal.
      specialize (IH (pre ++ mid ++ [c]) [] fuel ltac:(lia)).
      rewrite !length_app in IH. cbn [length] in IH.
      rewrite Nat.add_0_r in IH.
      replace (length pre + (length mid + 1))%nat
        with (S (length pre + length mid)) in IH by lia.
      replace ((pre ++ mid ++ [c]) ++ [] ++ s)
        with (pre ++ mid ++ c :: s) in IH
        by (cbn; now rewrite <- !app_assoc).
      rewrite IH.
      destruct (split_where cls s) as [|h t] eqn:E;
        [now apply split_where_nonempty in E|reflexivity].
    + specialize (IH pre (mid ++ [c]) fuel ltac:(lia)).
      rewrite length_app in IH. cbn [length] in IH.
      replace (length pre + (length mid + 1))%nat
        with (S (length pre + length mid)) in IH by lia.
      replace (pre ++ (mid ++ [c]) ++ s) with (pre ++ mid ++ c :: s) in IH
        by (now rewrite <- !app_assoc).
      rewrite IH.
      destruct (split_where cls s) as [|h t] eqn:E;
        [now apply split_where_nonempty in E|].
      now rewrite <- app_assoc.
Qed.

(** [s.split(re)] for a pattern that is one class cuts the text at every
    unit of the class. *)
Lemma split_class (cls : N -> bool) (s : jstring) :
  Regex.split [Regex.Chr cls] 0 s = split_where cls s.
Proof.
  unfold Regex.split. destruct s as [|c r]; [reflexivity|].
  transitivity (match split_where cls (c :: r) with
                | h :: t => ([] ++ h) :: t
                | [] => []
                end).
  - exact (split_loop_class cls (c :: r) [] []
             (2 * length (c :: r) + 2) ltac:(lia)).
  - destruct (split_where cls (c :: r)) as [|h t] eqn:E;
      [now apply split_where_nonempty in E|reflexivity].
Qed.

Lemma date_parts_where (dateStr : jstring) :
  date_parts dateStr = map trim (split_where is_dash dateStr).
Proof. unfold date_parts, re_dash. now rewrite split_class. Qed.

Lemma includes_dash (s : jstring) :
  includes s EN_DASH || includes s HYPHEN = existsb is_dash s.
Proof.
  unfold includes. induction s as [|c r IH]; [reflexivity|].
  cbn [existsb]. rewrite <- IH. unfold is_dash.
  rewrite (N.eqb_sym EN_DASH c), (N.eqb_sym HYPHEN c).
  destruct (N.eqb c EN_DASH), (N.eqb c HYPHEN),
    (existsb (N.eqb EN_DASH) r), (existsb (N.eqb HYPHEN) r); reflexivity.
Qed.

(** [formatDate] in one equation. *)
Lemma formatDate_eq (dateStr : jstring) :
  formatDate dateStr
  = if existsb is_dash dateStr
    then join (js " – ")
              (map format_part (map trim (split_where is_dash dateStr)))
    else format_part dateStr.
Proof.
  unfold formatDate. rewrite includes_dash.
  fold (date_parts dateStr). rewrite date_parts_where. reflexivity.
Qed.

(* ================================================================== *)
(** ** formatDate: what it prints *)
(* ================================================================== *)

Lemma search_not_bol (s : jstring) :
  forall pos, pos <> 0%nat -> Regex.search re_mm_yyyy s pos = None.
Proof.
  induction s as [|c r IH]; intros pos Hpos;
    (destruct pos as [|pos]; [congruence|]); cbn [Regex.search];
    unfold Regex.match_at, re_mm_yyyy; cbn [Regex.run Nat.eqb].
  - reflexivity.
  - now apply IH.
Qed.

Lemma test_mm_yyyy (p : jstring) :
  Regex.test re_mm_yyyy p = is_mm_yyyy p.
Proof.
  destruct p as [|d1 p]; [reflexivity|].
  unfold Regex.test. cbn [Regex.search].
  rewrite (search_not_bol p 1) by lia.
  unfold Regex.match_at, re_mm_yyyy.
  destruct p as [|d2 [|s [|y1 [|y2 [|y3 [|y4 [|z r]]]]]]];
    cbn -[is_digit N.eqb];
    repeat (match goal with
            | |- context [is_digit ?c] => destruct (is_digit c)
            | |- context [N.eqb SLASH ?c] => destruct (N.eqb SLASH c)
            end; cbn -[is_digit N.eqb]);
    reflexivity.
Qed.

Lemma is_digit_In (c : N) : is_digit c = true -> In c digits.
Proof.
  unfold is_digit. rewrite andb_true_iff, N.leb_le, N.leb_le.
  intros [H1 H2]. unfold digits. cbn [In]. lia.
Qed.

Lemma digit_plain (c : N) :
  is_digit c = true ->
  is_space c = false /\ is_dash c = false /\ N.eqb c SLASH = false.
Proof.
  intros H. apply is_digit_In in H. unfold digits in H. cbn [In] in H.
  repeat (destruct H as [<-|H]; [repeat split; reflexivity|]).
  contradiction.
Qed.

Lemma label_of_digits (d1 d2 : N) :
  is_digit d1 = true -> is_digit d2 = true ->
  interpolate (month_at (option_map (fun n => (n - 1)%Z) (parseInt [d1; d2])))
  = month_label (two_digits d1 d2).
Proof.
  intros H1 H2. apply is_digit_In in H1, H2.
  unfold digits in H1, H2. cbn [In] in H1, H2.
  repeat (destruct H1 as [<-|H1]; [|]); try contradiction;
    repeat (destruct H2 as [<-|H2]; [|]); try contradiction;
    vm_compute; reflexivity.
Qed.

Lemma month_year_shape (d1 d2 y1 y2 y3 y4 : N) :
  forallb is_digit [d1; d2; y1; y2; y3; y4] = true ->
  month_year [d1; d2; SLASH; y1; y2; y3; y4]
  = month_label (two_digits d1 d2) ++ SPACE :: [y1; y2; y3; y4].
Proof.
  cbn [forallb]. rewrite !andb_true_iff.
  intros (H1 & H2 & H3 & H4 & H5 & H6 & _).
  unfold month_year.
  assert (Hsplit : JsString.split SLASH [d1; d2; SLASH; y1; y2; y3; y4]
                   = [[d1; d2]; [y1; y2; y3; y4]]).
  { cbn [JsString.split].
    rewrite (proj2 (proj2 (digit_plain d1 H1))),
            (proj2 (proj2 (digit_plain d2 H2))),
            (proj2 (proj2 (digit_plain y1 H3))),
            (proj2 (proj2 (digit_plain y2 H4))),
            (proj2 (proj2 (digit_plain y3 H5))),
            (proj2 (proj2 (digit_plain y4 H6))), N.eqb_refl.
    reflexivity. }
  rewrite Hsplit. cbv zeta. cbn [nth_error interpolate].
  rewrite (label_of_digits d1 d2 H1 H2). reflexivity.
Qed.

Lemma is_mm_yyyy_shape (p : jstring) :
  is_mm_yyyy p = true ->
  exists d1 d2 y1 y2 y3 y4,
    p = [d1; d2; SLASH; y1; y2; y3; y4]
    /\ forallb is_digit [d1; d2; y1; y2; y3; y4] = true.
Proof.
  destruct p as [|d1 [|d2 [|s [|y1 [|y2 [|y3 [|y4 [|z r]]]]]]]];
    try discriminate.
  cbn [is_mm_yyyy]. rewrite !andb_true_iff.
  intros ((((((H1 & H2) & Hs) & H3) & H4) & H5) & H6).
  apply N.eqb_eq in Hs. subst s.
  exists d1, d2, y1, y2, y3, y4. split; [reflexivity|].
  cbn [forallb]. now rewrite H1, H2, H3, H4, H5, H6.
Qed.

Lemma month_label_ok (m : Z) : label_ok (month_label m) = true.
Proof.
  unfold month_label.
  destruct ((1 <=? m) && (m <=? 12))%Z eqn:E; [|vm_compute; reflexivity].
  apply andb_true_iff in E. destruct E as [E1 E2].
  apply Z.leb_le in E1, E2.
  assert (Hm : (m = 1 \/ m = 2 \/ m = 3 \/ m = 4 \/ m = 5 \/ m = 6 \/ m = 7
               \/ m = 8 \/ m = 9 \/ m = 10 \/ m = 11 \/ m = 12)%Z) by lia.
  repeat (destruct Hm as [->|Hm]; [vm_compute; reflexivity|]).
  subst m. vm_compute. reflexivity.
Qed.

(** What [format_part] returns: the part itself when it has not the shape,
    else a label, a space and the four digits of the year. *)
Lemma format_part_cases (part : jstring) :
  (is_mm_yyyy part = false /\ format_part part = part)
  \/ exists label y1 y2 y3 y4,
       label_ok label = true
       /\ forallb is_digit [y1; y2; y3; y4] = true
       /\ format_part part = label ++ SPACE :: [y1; y2; y3; y4].
Proof.
  unfold format_part. rewrite test_mm_yyyy.
  destruct (is_mm_yyyy part) eqn:E; [right|now left].
  destruct (is_mm_yyyy_shape part E) as (d1 & d2 & y1 & y2 & y3 & y4 & -> & Hd).
  exists (month_label (two_digits d1 d2)), y1, y2, y3, y4.
  split; [apply month_label_ok|]. split.
  - cbn [forallb] in *. rewrite !andb_true_iff in *. tauto.
  - now apply month_year_shape.
Qed.

Lemma is_mm_yyyy_head (c : N) (t : jstring) :
  is_digit c = false -> is_mm_yyyy (c :: t) = false.
Proof.
  intros Hc.
  destruct t as [|d2 [|s [|y1 [|y2 [|y3 [|y4 [|z r]]]]]]]; try reflexivity.
  cbn [is_mm_yyyy]. now rewrite Hc.
Qed.

Lemma trimEnd_snoc (a : jstring) (d : N) :
  is_space d = false -> trimEnd (a ++ [d]) = a ++ [d].
Proof.
  intros Hd. unfold trimEnd. rewrite rev_app_distr. cbn [rev app trimStart].
  rewrite Hd. cbn [rev]. now rewrite rev_involutive.
Qed.

(** A printed month with its year holds no dash, is trimmed, and is left
    alone by [format_part]. *)
Lemma printed_date (label : jstring) (y1 y2 y3 y4 : N) :
  label_ok label = true ->
  forallb is_digit [y1; y2; y3; y4] = true ->
  let q := label ++ SPACE :: [y1; y2; y3; y4] in
  existsb is_dash q = false /\ trim q = q /\ format_part q = q.
Proof.
  intros Hl Hy q.
  destruct label as [|c l]; [discriminate|].
  cbn [label_ok] in Hl. rewrite !andb_true_iff, !negb_true_iff in Hl.
  destruct Hl as [[Hsp Hdg] Hdash].
  cbn [forallb] in Hy. rewrite !andb_true_iff in Hy.
  destruct Hy as (H1 & H2 & H3 & H4 & _).
  split; [|split].
  - unfold q. rewrite existsb_app, Hdash. cbn [existsb].
    rewrite (proj1 (proj2 (digit_plain y1 H1))),
            (proj1 (proj2 (digit_plain y2 H2))),
            (proj1 (proj2 (digit_plain y3 H3))),
            (proj1 (proj2 (digit_plain y4 H4))).
    reflexivity.
  - unfold trim, q. cbn [app trimStart]. rewrite Hsp.
    replace (c :: l ++ [SPACE; y1; y2; y3; y4])
      with ((c :: l ++ [SPACE; y1; y2; y3]) ++ [y4])
      by (cbn; now rewrite <- app_assoc).
    apply trimEnd_snoc. exact (proj1 (digit_plain y4 H4)).
  - unfold format_part. rewrite test_mm_yyyy.
    unfold q. cbn [app]. now rewrite is_mm_yyyy_head.
Qed.

Lemma existsb_trimStart (cls : N -> bool) (x : jstring) :
  existsb cls x = false -> existsb cls (trimStart x) = false.
Proof.
  induction x as [|c r IH]; [reflexivity|]. cbn [existsb trimStart].
  intros H. apply orb_false_iff in H. destruct H as [Hc Hr].
  destruct (is_space c); [now apply IH|]. cbn [existsb]. now rewrite Hc, Hr.
Qed.

Lemma existsb_rev_false (cls : N -> bool) (x : jstring) :
  existsb cls x = false -> existsb cls (rev x) = false.
Proof.
  induction x as [|c r IH]; [reflexivity|]. cbn [existsb rev].
  intros H. apply orb_false_iff in H. destruct H as [Hc Hr].
  rewrite existsb_app, (IH Hr). cbn [existsb]. now rewrite Hc.
Qed.

Lemma existsb_trim (cls : N -> bool) (x : jstring) :
  existsb cls x = false -> existsb cls (trim x) = false.
Proof.
  intros H. unfold trim, trimEnd.
  now apply existsb_rev_false, existsb_trimStart, existsb_rev_false,
            existsb_trimStart.
Qed.

Lemma split_where_pieces (cls : N -> bool) (s : jstring) :
  Forall (fun w => existsb cls w = false) (split_where cls s).
Proof.
  induction s as [|c r IH]; cbn [split_where].
  - constructor; [reflexivity|constructor].
  - destruct (cls c) eqn:Hc.
    + constructor; [reflexivity|exact IH].
    + destruct (split_where cls r) as [|h t]; inversion IH; subst;
        constructor; cbn [existsb]; try assumption; rewrite Hc;
        [reflexivity|assumption].
Qed.

Lemma split_where_none (cls : N -> bool) (w : jstring) :
  existsb cls w = false -> split_where cls w = [w].
Proof.
  induction w as [|c w IH]; [reflexivity|]. cbn [existsb split_where].
  intros H. apply orb_false_iff in H. destruct H as [Hc Hw].
  now rewrite Hc, (IH Hw).
Qed.

Lemma split_where_app (cls : N -> bool) (w : jstring) (d : N) (rest : jstring) :
  existsb cls w = false -> cls d = true ->
  split_where cls (w ++ d :: rest) = w :: split_where cls rest.
Proof.
  intros Hw Hd. induction w as [|c w IH]; cbn [app split_where].
  - now rewrite Hd.
  - cbn [existsb] in Hw. apply orb_false_iff in Hw. destruct Hw as [Hc Hw].
    now rewrite Hc, (IH Hw).
Qed.

Lemma split_where_two (cls : N -> bool) (s : jstring) :
  existsb cls s = true -> exists a b r, split_where cls s = a :: b :: r.
Proof.
  induction s as [|c s IH]; [discriminate|]. cbn [existsb split_where].
  destruct (cls c) eqn:Hc.
  - intros _. destruct (split_where cls s) as [|h t] eqn:E;
      [now apply split_where_nonempty in E|eauto].
  - cbn [orb]. intros H. destruct (IH H) as (a & b & r & ->). eauto.
Qed.

Lemma trim_snoc_space (x : jstring) : trim (x ++ [SPACE]) = trim x.
Proof.
  induction x as [|c x IH]; [reflexivity|].
  unfold trim in *. cbn [app trimStart].
  destruct (is_space c) eqn:Hc; [exact IH|].
  unfold trimEnd. change (c :: x ++ [SPACE]) with ((c :: x) ++ [SPACE]).
  now rewrite rev_app_distr.
Qed.

Lemma format_part_settled (p : jstring) :
  existsb is_dash p = false -> trim p = p -> settled_part (format_part p).
Proof.
  intros Hd Ht.
  destruct (format_part_cases p)
    as [[Hno Hp]|(label & y1 & y2 & y3 & y4 & Hl & Hy & ->)].
  - rewrite Hp. repeat split; assumption.
  - exact (printed_date label y1 y2 y3 y4 Hl Hy).
Qed.

Lemma formatted_parts_settled (s : jstring) :
  Forall settled_part (map format_part (map trim (split_where is_dash s))).
Proof.
  pose proof (split_where_pieces is_dash s) as H.
  induction H as [|w ws Hw _ IH]; [constructor|].
  cbn [map]. constructor; [|exact IH].
  apply format_part_settled; [now apply existsb_trim|apply trim_idempotent].
Qed.

Lemma resplit_joined (parts : list jstring) :
  parts <> [] -> Forall settled_part parts ->
  forall lead, lead = [] \/ lead = [SPACE] ->
  map trim (split_where is_dash (lead ++ join (js " – ") parts)) = parts.
Proof.
  change (js " – ") with [SPACE; EN_DASH; SPACE].
  induction parts as [|x parts IH]; intros Hne Hall lead Hlead; [congruence|].
  inversion Hall as [|? ? (Hd & Ht & _) Hrest]; subst.
  assert (Hleadx : existsb is_dash (lead ++ x) = false /\ trim (lead ++ x) = x).
  { destruct Hlead as [->| ->]; (split; [exact Hd|exact Ht]). }
  destruct Hleadx as [Hd' Ht'].
  destruct parts as [|y parts].
  - cbn [join]. rewrite (split_where_none is_dash _ Hd'). cbn [map].
    now rewrite Ht'.
  - change (join [SPACE; EN_DASH; SPACE] (x :: y :: parts))
      with (x ++ [SPACE] ++ EN_DASH
              :: ([SPACE] ++ join [SPACE; EN_DASH; SPACE] (y :: parts))).
    rewrite !app_assoc.
    rewrite split_where_app;
      [|rewrite existsb_app, Hd'; reflexivity|reflexivity].
    assert (Hne' : y :: parts <> []) by discriminate.
    cbn [map]. rewrite (IH Hne' Hrest [SPACE] (or_intror eq_refl)).
    now rewrite trim_snoc_space, Ht'.
Qed.

Lemma join_has_dash (x y : jstring) (r : list jstring) :
  existsb is_dash (join (js " – ") (x :: y :: r)) = true.
Proof.
  change (join (js " – ") (x :: y :: r))
    with (x ++ SPACE :: EN_DASH :: SPACE :: join (js " – ") (y :: r)).
  rewrite existsb_app. cbn [existsb]. apply orb_true_r.
Qed.

Lemma map_fixed {A : Type} (g : A -> A) (P : A -> Prop) (l : list A) :
  (forall x, P x -> g x = x) -> Forall P l -> map g l = l.
Proof.
  intros Hg. induction 1 as [|x l Hx _ IH]; [reflexivity|].
  cbn [map]. now rewrite (Hg x Hx), IH.
Qed.

Lemma format_part_no_dash (p : jstring) :
  existsb is_dash p = false -> existsb is_dash (format_part p) = false.
Proof.
  intros Hd.
  destruct (format_part_cases p)
    as [[Hno Hp]|(label & y1 & y2 & y3 & y4 & Hl & Hy & ->)].
  - now rewrite Hp.
  - exact (proj1 (printed_date label y1 y2 y3 y4 Hl Hy)).
Qed.

Lemma format_part_idempotent (p : jstring) :
  format_part (format_part p) = format_part p.
Proof.
  destruct (format_part_cases p)
    as [[Hno Hp]|(label & y1 & y2 & y3 & y4 & Hl & Hy & ->)].
  - now rewrite !Hp.
  - exact (proj2 (proj2 (printed_date label y1 y2 y3 y4 Hl Hy))).
Qed.

Lemma formatDate_twice (dateStr : jstring) :
  formatDate (formatDate dateStr) = formatDate dateStr.
Proof.
  rewrite (formatDate_eq dateStr).
  destruct (existsb is_dash dateStr) eqn:Hdash.
  - pose proof (formatted_parts_settled dateStr) as Hall.
    destruct (split_where_two is_dash dateStr Hdash) as (a & b & r & Hs).
    rewrite Hs in *. cbn [map] in *.
    set (x := format_part (trim a)) in *.
    set (y := format_part (trim b)) in *.
    set (l := map format_part (map trim r)) in *.
    rewrite formatDate_eq, join_has_dash.
    assert (Hne : x :: y :: l <> []) by discriminate.
    pose proof (resplit_joined (x :: y :: l) Hne Hall []
                  (or_introl eq_refl)) as Hre.
    cbn [app] in Hre. rewrite Hre.
    f_equal. apply (map_fixed format_part settled_part); [|exact Hall].
    intros q Hq. apply Hq.
  - rewrite formatDate_eq, (format_part_no_dash _ Hdash).
    apply format_part_idempotent.
Qed.

Lemma no_dash_no_hyphen (q : jstring) :
  existsb is_dash q = false -> existsb (N.eqb HYPHEN) q = false.
Proof.
  induction q as [|c q IH]; [reflexivity|]. cbn [existsb]. unfold is_dash at 1.
  intros H. apply orb_false_iff in H. destruct H as [Hc Hq].
  apply orb_false_iff in Hc. destruct Hc as [_ Hc].
  now rewrite N.eqb_sym, Hc, (IH Hq).
Qed.

Lemma join_no_hyphen (parts : list jstring) :
  Forall settled_part parts ->
  existsb (N.eqb HYPHEN) (join (js " – ") parts) = false.
Proof.
  change (js " – ") with [SPACE; EN_DASH; SPACE].
  induction 1 as [|x parts (Hd & _) Hrest IH]; [reflexivity|].
  destruct parts as [|y parts].
  - cbn [join]. now apply no_dash_no_hyphen.
  - change (join [SPACE; EN_DASH; SPACE] (x :: y :: parts))
      with (x ++ [SPACE; EN_DASH; SPACE]
              ++ join [SPACE; EN_DASH; SPACE] (y :: parts)).
    rewrite !existsb_app, IH, (no_dash_no_hyphen x Hd). reflexivity.
Qed.

Lemma to_en_dash_class (c : N) :
  is_dash (to_en_dash c) = is_dash c
  /\ (is_dash c = false -> to_en_dash c = c).
Proof.
  unfold to_en_dash, is_dash.
  destruct (N.eqb c HYPHEN) eqn:Hh.
  - apply N.eqb_eq in Hh. subst c. split; [reflexivity|discriminate].
  - rewrite Hh. split; reflexivity.
Qed.

Lemma split_where_to_en_dash (s : jstring) :
  split_where is_dash (map to_en_dash s) = split_where is_dash s.
Proof.
  induction s as [|c s IH]; [reflexivity|]. cbn [map split_where].
  destruct (to_en_dash_class c) as [Hc Hid]. rewrite Hc, IH.
  destruct (is_dash c); [reflexivity|]. now rewrite Hid.
Qed.

Lemma existsb_to_en_dash (s : jstring) :
  existsb is_dash (map to_en_dash s) = existsb is_dash s.
Proof.
  induction s as [|c s IH]; [reflexivity|]. cbn [map existsb].
  now rewrite (proj1 (to_en_dash_class c)), IH.
Qed.

Lemma to_en_dash_plain (s : jstring) :
  existsb is_dash s = false -> map to_en_dash s = s.
Proof.
  induction s as [|c s IH]; [reflexivity|]. cbn [map existsb].
  intros H. apply orb_false_iff in H. destruct H as [Hc Hs].
  now rewrite (proj2 (to_en_dash_class c) Hc), (IH Hs).
Qed.

(** X10.  On two digits, a slash and four digits, [formatDate] prints the
    name of the month, a space and the year; when the two digits are not
    a month from 01 to 12 it prints [undefined] for the month and does not
    fail. *)
Theorem formatDate_month_year (d1 d2 y1 y2 y3 y4 : N) :
  forallb is_digit [d1; d2; y1; y2; y3; y4] = true ->
  formatDate [d1; d2; SLASH; y1; y2; y3; y4]
  = month_label (two_digits d1 d2) ++ SPACE :: [y1; y2; y3; y4].
Proof.
  intros Hd. rewrite formatDate_eq.
  assert (Hshape : is_mm_yyyy [d1; d2; SLASH; y1; y2; y3; y4] = true).
  { cbn [forallb] in Hd. rewrite !andb_true_iff in Hd.
    destruct Hd as (H1 & H2 & H3 & H4 & H5 & H6 & _).
    cbn [is_mm_yyyy]. now rewrite H1, H2, H3, H4, H5, H6, N.eqb_refl. }
  assert (Hdash : existsb is_dash [d1; d2; SLASH; y1; y2; y3; y4] = false).
  { cbn [forallb] in Hd. rewrite !andb_true_iff in Hd.
    destruct Hd as (H1 & H2 & H3 & H4 & H5 & H6 & _).
    cbn [existsb].
    rewrite (proj1 (proj2 (digit_plain d1 H1))),
            (proj1 (proj2 (digit_plain d2 H2))),
            (proj1 (proj2 (digit_plain y1 H3))),
            (proj1 (proj2 (digit_plain y2 H4))),
            (proj1 (proj2 (digit_plain y3 H5))),
            (proj1 (proj2 (digit_plain y4 H6))).
    reflexivity. }
  rewrite Hdash. unfold format_part. rewrite test_mm_yyyy, Hshape.
  now apply month_year_shape.
Qed.

Lemma formatDate_month_year_witness :
  formatDate (js "13/2022") = js "undefined 2022"
  /\ formatDate (js "02/1999") = js "Feb 1999".
Proof.
  split.
  - apply (formatDate_month_year 49 51 50 48 50 50). reflexivity.
  - apply (formatDate_month_year 48 50 49 57 57 57). reflexivity.
Defined.

(** X11.  Formatting twice changes nothing more:
    [formatDate (formatDate s) = formatDate s] for every text. *)
Theorem formatDate_idempotent (dateStr : jstring) :
  formatDate (formatDate dateStr) = formatDate dateStr.
Proof. apply formatDate_twice. Qed.

(** X12.  What [formatDate] returns never holds a hyphen: every dash that
    separates two parts comes out as an en dash between spaces. *)
Theorem formatDate_no_hyphen (dateStr : jstring) :
  includes (formatDate dateStr) HYPHEN = false.
Proof.
  unfold includes. rewrite formatDate_eq.
  destruct (existsb is_dash dateStr) eqn:Hdash.
  - apply join_no_hyphen, formatted_parts_settled.
  - apply no_dash_no_hyphen, format_part_no_dash, Hdash.
Qed.

(** X13.  Hyphens and en dashes are interchangeable in the input: turning
    every hyphen of a text into an en dash does not change what
    [formatDate] returns. *)
Theorem formatDate_dash_kind (dateStr : jstring) :
  formatDate (map to_en_dash dateStr) = formatDate dateStr.
Proof.
  rewrite !formatDate_eq, existsb_to_en_dash, split_where_to_en_dash.
  destruct (existsb is_dash dateStr) eqn:Hdash; [reflexivity|].
  now rewrite to_en_dash_plain.
Qed.

(* ================================================================== *)
(** ** drawTextWithBold: the runs *)
(* ================================================================== *)

Lemma bold_fold_runs (widthOfTextAtSize : font -> jstring -> Z -> Z)
    (y : Z) (f fontBold : font) (size : Z) (c : color) (parts : list jstring) :
  forall drawn_so_far offsetX,
  exists new,
    fst (fold_left (bold_step widthOfTextAtSize y f fontBold size c) parts
                   (drawn_so_far, offsetX))
    = drawn_so_far ++ new
    /\ runs_from widthOfTextAtSize f fontBold offsetX y size c new
    /\ length new = length parts.
Proof.
  induction parts as [|part parts IH]; intros acc off.
  - exists []. cbn. now rewrite app_nil_r.
  - cbn [fold_left]. unfold bold_step at 2.
    destruct (startsWith part (js "**") && endsWith part (js "**")).
    + destruct (IH (acc ++ [DrawText (slice_2_m2 part) off y size fontBold c])
                   (off + widthOfTextAtSize fontBold (slice_2_m2 part) size)%Z)
        as (new & Hops & Hruns & Hlen).
      exists (DrawText (slice_2_m2 part) off y size fontBold c :: new).
      rewrite Hops, <- app_assoc. cbn [app runs_from length].
      repeat split; auto.
    + destruct (IH (acc ++ [DrawText part off y size f c])
                   (off + widthOfTextAtSize f part size)%Z)
        as (new & Hops & Hruns & Hlen).
      exists (DrawText part off y size f c :: new).
      rewrite Hops, <- app_assoc. cbn [app runs_from length].
      repeat split; auto.
Qed.

Lemma split_loop_nonempty (re : Regex.regex) (n : nat) (input : jstring) :
  forall fuel p q, Regex.split_loop fuel re n input p q <> [].
Proof.
  induction fuel as [|fuel IH]; intros p q; cbn [Regex.split_loop];
    [discriminate|].
  destruct (Nat.ltb q (length input)); [|discriminate].
  destruct (Regex.match_at re (skipn q input) q) as [[e0 st]|]; [|apply IH].
  cbv zeta. destruct (Nat.eqb _ p); [apply IH|discriminate].
Qed.

Lemma split_bold_nonempty (text : jstring) :
  Regex.split re_bold 1 text <> [].
Proof.
  unfold Regex.split. destruct text; [discriminate|apply split_loop_nonempty].
Qed.

(** X14.  [drawTextWithBold] always draws at least one run, and its runs
    stand side by side: all at the height, size and colour given, each in
    the plain or the bold font, the first at [x] and every next one where
    the one before ends, measured in the font it was drawn in. *)
Theorem drawTextWithBold_runs_abut
    (widthOfTextAtSize : font -> jstring -> Z -> Z)
    (text : jstring) (x y : Z) (f fontBold : font) (size : Z) (c : color) :
  drawTextWithBold widthOfTextAtSize text x y f fontBold size c <> []
  /\ runs_from widthOfTextAtSize f fontBold x y size c
       (drawTextWithBold widthOfTextAtSize text x y f fontBold size c).
Proof.
  unfold drawTextWithBold.
  destruct (bold_fold_runs widthOfTextAtSize y f fontBold size c
              (Regex.split re_bold 1 text) [] x) as (new & -> & Hruns & Hlen).
  cbn [app]. split; [|exact Hruns].
  intros ->. cbn in Hlen. symmetry in Hlen.
  apply length_zero_iff_nil in Hlen. now apply split_bold_nonempty in Hlen.
Qed.

(** A greedy, unbounded repetition takes every unit of the class in front
    of a unit outside it, when the pattern that follows then matches. *)
Lemma rep_greedy_all {R : Type} (p : N -> bool)
    (k : jstring -> nat -> option R) (rest : jstring) (r : R)
    (taken : jstring) :
  Forall (fun c => p c = true) taken ->
  match rest with c :: _ => p c = false | [] => True end ->
  forall min pos,
    (min <= length taken)%nat ->
    k rest (pos + length taken)%nat = Some r ->
    Regex.rep p true k min None (taken ++ rest) pos = Some r.
Proof.
  intros Hall Hrest. induction Hall as [|c taken Hc _ IH]; intros min pos Hmin Hk.
  - cbn in Hmin. assert (min = 0%nat) by lia. subst min.
    cbn [app length] in *. rewrite Nat.add_0_r in Hk.
    destruct rest as [|d rest]; cbn [Regex.rep]; [exact Hk|].
    now rewrite Hrest, Hk.
  - cbn [app length] in *. rewrite Nat.add_succ_r in Hk.
    destruct min as [|m]; cbn [Regex.rep]; rewrite Hc; cbn [andb Regex.allows Regex.dec].
    + now rewrite (IH 0%nat (S pos) ltac:(lia) Hk).
    + apply IH; [lia|exact Hk].
Qed.

Lemma match_bold_complete (mid post : jstring) (q : nat) :
  mid <> [] -> ~ In ASTERISK mid ->
  Regex.match_at re_bold (js "**" ++ mid ++ js "**" ++ post) q
  = Some ((q + (4 + length mid))%nat,
          {| Regex.opened := [(1%nat, q)];
             Regex.closed := [(1%nat, q, (q + (4 + length mid))%nat)] |}).
Proof.
  intros Hne Hmid. unfold Regex.match_at, re_bold.
  change (js "**") with [ASTERISK; ASTERISK].
  cbn [Regex.run app Regex.start Regex.opened Regex.closed].
  change (N.eqb ASTERISK ASTERISK) with true. cbv iota.
  rewrite (rep_greedy_all _ _ (ASTERISK :: ASTERISK :: post)
             (S (S (S (S (q + length mid)))),
              {| Regex.opened := [(1%nat, q)];
                 Regex.closed := [(1%nat, q, S (S (S (S (q + length mid)))))] |})
             mid).
  - repeat f_equal; lia.
  - apply Forall_forall. intros c Hc. apply negb_true_iff, N.eqb_neq.
    intros ->. contradiction.
  - reflexivity.
  - destruct mid; [congruence|cbn; lia].
  - cbn [Regex.find_open Nat.eqb].
    change (N.eqb ASTERISK ASTERISK) with true. cbv iota.
    repeat f_equal; lia.
Qed.

Lemma match_bold_none (s : jstring) (q : nat) :
  match s with c :: _ => c <> ASTERISK | [] => True end ->
  Regex.match_at re_bold s q = None.
Proof.
  unfold Regex.match_at, re_bold. cbn [Regex.run].
  destruct s as [|c s]; [reflexivity|]. intros Hc.
  apply not_eq_sym, N.eqb_neq in Hc. now rewrite Hc.
Qed.

Lemma skipn_head_in {A : Type} (j : nat) (l : list A) :
  match skipn j l with c :: _ => In c l | [] => True end.
Proof.
  revert l. induction j as [|j IH]; intros [|x l]; cbn; auto.
  specialize (IH l). destruct (skipn j l); auto.
Qed.

Lemma split_loop_advance (re : Regex.regex) (n : nat) (input : jstring)
    (p : nat) :
  forall d q fuel,
    (forall j, (q <= j < q + d)%nat ->
               Regex.match_at re (skipn j input) j = None) ->
    (q + d <= length input)%nat ->
    Regex.split_loop (d + fuel) re n input p q
    = Regex.split_loop fuel re n input p (q + d).
Proof.
  induction d as [|d IH]; intros q fuel Hnone Hlen.
  - now rewrite Nat.add_0_r.
  - cbn [Nat.add Regex.split_loop].
    assert (Hq : Nat.ltb q (length input) = true) by (apply Nat.ltb_lt; lia).
    rewrite Hq, (Hnone q ltac:(lia)).
    rewrite IH; [f_equal; lia| |lia].
    intros j Hj. apply Hnone. lia.
Qed.

Lemma split_loop_rest (re : Regex.regex) (n : nat) (input : jstring)
    (p q : nat) :
  (forall j, (q <= j)%nat -> Regex.match_at re (skipn j input) j = None) ->
  forall fuel q', (q <= q')%nat ->
    Regex.split_loop fuel re n input p q' = [skipn p input].
Proof.
  intros Hnone. induction fuel as [|fuel IH]; intros q' Hq';
    cbn [Regex.split_loop]; [reflexivity|].
  destruct (Nat.ltb q' (length input)); [|reflexivity].
  rewrite (Hnone q' Hq'). apply IH. lia.
Qed.

(** The splitter on a text with one bold span and no other asterisk. *)
Lemma split_one_span (pre mid post : jstring) :
  ~ In ASTERISK pre -> mid <> [] -> ~ In ASTERISK mid -> ~ In ASTERISK post ->
  Regex.split re_bold 1 (pre ++ js "**" ++ mid ++ js "**" ++ post)
  = [pre; js "**" ++ mid ++ js "**"; post].
Proof.
  intros Hpre Hne Hmid Hpost.
  set (input := pre ++ js "**" ++ mid ++ js "**" ++ post).
  assert (Hlen : length input = (length pre + (4 + length mid) + length post)%nat).
  { unfold input. rewrite !length_app. cbn. lia. }
  assert (Hinput : exists c r, input = c :: r).
  { destruct input as [|c r] eqn:E; [cbn in Hlen; lia|eauto]. }
  destruct Hinput as (c0 & r0 & Hcons).
  unfold Regex.split. rewrite Hcons, <- Hcons.
  replace (2 * length input + 2)%nat
    with (length pre + S (2 * length input + 1 - length pre))%nat by lia.
  rewrite (split_loop_advance re_bold 1 input 0 (length pre) 0).
  - cbn [Nat.add Regex.split_loop].
    assert (Hq : Nat.ltb (length pre) (length input) = true)
      by (apply Nat.ltb_lt; lia).
    rewrite Hq.
    assert (Hskip : skipn (length pre) input
                    = js "**" ++ mid ++ js "**" ++ post)
      by apply skipn_length_app.
    rewrite Hskip, (match_bold_complete mid post (length pre) Hne Hmid).
    cbv zeta.
    assert (Hmin : Nat.min (length pre + (4 + length mid)) (length input)
                   = (length pre + (4 + length mid))%nat)
      by (apply Nat.min_l; lia).
    rewrite Hmin.
    assert (Hnz : Nat.eqb (length pre + (4 + length mid)) 0 = false)
      by (apply Nat.eqb_neq; lia).
    rewrite Hnz.
    assert (Hfirst : Regex.substring input 0 (length pre) = pre).
    { unfold Regex.substring. cbn [skipn]. rewrite Nat.sub_0_r.
      apply firstn_length_app. }
    assert (Hgroup : Regex.substring input (length pre)
                       (length pre + (4 + length mid))
                     = js "**" ++ mid ++ js "**").
    { unfold Regex.substring. rewrite Hskip.
      replace (length pre + (4 + length mid) - length pre)%nat
        with (length (js "**" ++ mid ++ js "**"))
        by (rewrite !length_app; cbn; lia).
      rewrite !app_assoc. rewrite <- (app_assoc (js "**") mid).
      apply firstn_length_app. }
    assert (Hlast : skipn (length pre + (4 + length mid)) input = post).
    { unfold input.
      replace (length pre + (4 + length mid))%nat
        with (length (pre ++ js "**" ++ mid ++ js "**"))
        by (rewrite !length_app; cbn; lia).
      replace (pre ++ js "**" ++ mid ++ js "**" ++ post)
        with ((pre ++ js "**" ++ mid ++ js "**") ++ post)
        by (now rewrite <- !app_assoc).
      apply skipn_length_app. }
    rewrite Hfirst. f_equal.
    cbn [seq map Regex.group Regex.find_closed Regex.closed Nat.eqb app].
    rewrite Hgroup. f_equal.
    rewrite (split_loop_rest re_bold 1 input _
               (length pre + (4 + length mid))); [now rewrite Hlast| |lia].
    intros j Hj. apply match_bold_none.
    replace j with ((j - (length pre + (4 + length mid)))
                    + (length pre + (4 + length mid)))%nat by lia.
    rewrite <- skipn_skipn, Hlast.
    pose proof (skipn_head_in (j - (length pre + (4 + length mid))) post) as Hh.
    destruct (skipn (j - (length pre + (4 + length mid))) post); [exact I|].
    intros ->. contradiction.
  - intros j Hj. apply match_bold_none.
    unfold input. rewrite skipn_app.
    pose proof (skipn_head_in j pre) as Hh.
    destruct (skipn j pre) as [|c r] eqn:E.
    + exfalso. apply (f_equal (@length N)) in E.
      rewrite length_skipn in E. cbn in E. lia.
    + cbn [app]. intros ->. contradiction.
  - lia.
Qed.

Lemma plain_part_guard (s : jstring) :
  ~ In ASTERISK s ->
  startsWith s (js "**") && endsWith s (js "**") = false.
Proof.
  intros Hs. change (js "**") with [ASTERISK; ASTERISK].
  destruct s as [|c s]; [reflexivity|]. cbn [startsWith].
  destruct (N.eqb_spec c ASTERISK) as [->|_]; [|reflexivity].
  exfalso. apply Hs. now left.
Qed.

Lemma bold_part_guard (mid : jstring) :
  startsWith (js "**" ++ mid ++ js "**") (js "**")
  && endsWith (js "**" ++ mid ++ js "**") (js "**") = true
  /\ slice_2_m2 (js "**" ++ mid ++ js "**") = mid.
Proof.
  change (js "**") with [ASTERISK; ASTERISK]. split.
  - unfold endsWith. rewrite !rev_app_distr. reflexivity.
  - unfold slice_2_m2.
    replace (length ([ASTERISK; ASTERISK] ++ mid ++ [ASTERISK; ASTERISK]) - 2 - 2)%nat
      with (length mid) by (rewrite !length_app; cbn; lia).
    cbn [app skipn]. apply firstn_length_app.
Qed.

(** X15.  A line with one bold span and no other asterisk is drawn as three
    runs: the text before the span in the plain font at [x], the text
    between the markers in the bold font right behind it, and the text
    after the span in the plain font behind that.  The markers are not
    drawn. *)
Theorem drawTextWithBold_one_span
    (widthOfTextAtSize : font -> jstring -> Z -> Z)
    (pre mid post : jstring) (x y : Z) (f fontBold : font) (size : Z)
    (c : color) :
  ~ In ASTERISK pre -> mid <> [] -> ~ In ASTERISK mid -> ~ In ASTERISK post ->
  drawTextWithBold widthOfTextAtSize
    (pre ++ js "**" ++ mid ++ js "**" ++ post) x y f fontBold size c
  = [DrawText pre x y size f c;
     DrawText mid (x + widthOfTextAtSize f pre size) y size fontBold c;
     DrawText post (x + widthOfTextAtSize f pre size
                    + widthOfTextAtSize fontBold mid size) y size f c].
Proof.
  intros Hpre Hne Hmid Hpost. unfold drawTextWithBold.
  rewrite (split_one_span pre mid post Hpre Hne Hmid Hpost).
  cbn [fold_left]. unfold bold_step.
  destruct (bold_part_guard mid) as [Hguard Hslice].
  rewrite (plain_part_guard pre Hpre), Hguard, Hslice,
          (plain_part_guard post Hpost).
  reflexivity.
Qed.

Lemma drawTextWithBold_one_span_witness :
  Sample.drawTextWithBold (js "Built **Redis** caching.") 60000 700000
                          Helvetica HelveticaBold 11000 BLACK
  = [DrawText (js "Built ") 60000 700000 11000 Helvetica BLACK;
     DrawText (js "Redis") 99600 700000 11000 HelveticaBold BLACK;
     DrawText (js " caching.") 132600 700000 11000 Helvetica BLACK].
Proof.
  apply (drawTextWithBold_one_span Sample.widthOfTextAtSize
           (js "Built ") (js "Redis") (js " caching."));
    vm_compute; intuition discriminate.
Defined.

(* ================================================================== *)
(** ** The page flow: what every round keeps *)
(* ================================================================== *)

Section FlowInvariant.

Variable widthOfTextAtSize : font -> jstring -> Z -> Z.
Variable toLowerCase : jstring -> jstring.

(** [ok] is a property of the cursor that every page check establishes,
    [P] a property of the operations that holds of a new page and of every
    text drawn at a cursor that is [ok]. *)
Variable ok : Z -> Prop.
Variable P : op -> Prop.
Hypothesis P_page : P new_page.
Hypothesis ok_roll : forall st, ok (y (roll st)).
Hypothesis P_text :
  forall text x y0 size f c, ok y0 -> P (DrawText text x y0 size f c).

Lemma roll_inv (st : cursor) :
  exists new, ops (roll st) = ops st ++ new /\ Forall P new.
Proof.
  unfold roll. destruct (y st <? MARGIN_BOTTOM)%Z; cbn [ops].
  - exists [new_page]. split; [reflexivity|]. now constructor.
  - exists []. now rewrite app_nil_r.
Qed.

Lemma flow_inv (draw : jstring -> Z -> list op) (height : Z) :
  (forall line y0, ok y0 -> Forall P (draw line y0)) ->
  forall lines st, ok (y st) ->
  exists new,
    ops (flow draw height lines st) = ops st ++ new
    /\ Forall P new /\ ok (y (flow draw height lines st)).
Proof.
  intros Hdraw. induction lines as [|line lines IH]; intros st Hst.
  - exists []. cbn. now rewrite app_nil_r.
  - unfold flow in *. cbn [fold_left].
    destruct (roll_inv (advance height (emit (draw line (y st)) st)))
      as (page & Hroll & Hpage).
    destruct (IH (roll (advance height (emit (draw line (y st)) st)))
                 (ok_roll _)) as (new & Hops & Hnew & Hok).
    exists (draw line (y st) ++ page ++ new). split; [|split].
    + rewrite Hops, Hroll. cbn [ops advance emit]. now rewrite <- !app_assoc.
    + apply Forall_app. split; [now apply Hdraw|].
      apply Forall_app. now split.
    + exact Hok.
Qed.

Lemma text_at_inv (x size : Z) (f : font) (c : color) :
  forall line y0, ok y0 -> Forall P (text_at x size f c line y0).
Proof.
  intros line y0 Hy. unfold text_at. constructor; [now apply P_text|constructor].
Qed.

Lemma runs_from_inv (f fontBold : font) (x y0 size : Z) (c : color)
    (l : list op) :
  ok y0 -> runs_from widthOfTextAtSize f fontBold x y0 size c l -> Forall P l.
Proof.
  intros Hy. revert x. induction l as [|o l IH]; intros x Hruns; [constructor|].
  destruct o as [w h|text x' y' size' f' c'|]; cbn [runs_from] in Hruns;
    try contradiction.
  destruct Hruns as (_ & -> & _ & _ & _ & Hrest).
  constructor; [now apply P_text|]. exact (IH _ Hrest).
Qed.

Lemma bold_inv (x size : Z) (f fontBold : font) (c : color) :
  forall line y0,
    ok y0 ->
    Forall P (drawTextWithBold widthOfTextAtSize line x y0 f fontBold size c).
Proof.
  intros line y0 Hy. unfold drawTextWithBold.
  destruct (bold_fold_runs widthOfTextAtSize y0 f fontBold size c
              (Regex.split re_bold 1 line) [] x) as (new & -> & Hruns & _).
  cbn [app]. exact (runs_from_inv _ _ _ _ _ _ _ Hy Hruns).
Qed.

Lemma job_entry_inv (jobTitle companyName period : jstring) (st : cursor) :
  ok (y st - pt 8) ->
  exists new,
    ops (job_entry widthOfTextAtSize jobTitle companyName period st)
    = ops st ++ new
    /\ Forall P new.
Proof.
  intros Hst. unfold job_entry. cbv zeta.
  set (st0 := advance (pt 8) st).
  destruct (flow_inv _ (BODY_LINE_HEIGHT + pt 2)
              (text_at_inv (left + pt 10) (BODY_SIZE + pt 1) HelveticaBold
                           MEDIUM_BLUE)
              (wrapText widthOfTextAtSize (trim jobTitle) HelveticaBold
                        (BODY_SIZE + pt 1) (CONTENT_WIDTH - pt 10))
              st0 Hst) as (n1 & H1 & Hn1 & Hok1).
  set (st1 := flow _ _ _ st0) in *.
  destruct (flow_inv _ BODY_LINE_HEIGHT
              (text_at_inv (left + pt 10) BODY_SIZE Helvetica GRAY)
              (wrapText widthOfTextAtSize (trim companyName) Helvetica
                        BODY_SIZE (CONTENT_WIDTH - pt 10))
              st1 Hok1) as (n2 & H2 & Hn2 & Hok2).
  set (st2 := flow _ _ _ st1) in *.
  destruct (flow_inv _ (BODY_LINE_HEIGHT - pt 2)
              (text_at_inv (left + pt 10) (BODY_SIZE - pt 1) Helvetica GRAY)
              (wrapText widthOfTextAtSize (formatDate (trim period)) Helvetica
                        (BODY_SIZE - pt 1) (CONTENT_WIDTH - pt 10))
              st2 Hok2) as (n3 & H3 & Hn3 & Hok3).
  exists (n1 ++ n2 ++ n3). split.
  - cbn [ops advance]. rewrite H3, H2, H1. unfold st0. cbn [ops advance].
    now rewrite <- !app_assoc.
  - apply Forall_app. split; [exact Hn1|]. apply Forall_app. now split.
Qed.

(** One round of the body loop on a non-blank line. *)
Lemma body_line_inv (st : cursor) (raw : jstring) :
  nonblank raw = true ->
  ok (y st) -> ok (y st - pt 12) -> ok (y st - pt 8) ->
  exists new,
    ops (body_line widthOfTextAtSize toLowerCase st raw) = ops st ++ new
    /\ Forall P new
    /\ ok (y (body_line widthOfTextAtSize toLowerCase st raw)).
Proof.
  intros Hnb Hst H12 H8. unfold body_line. cbv zeta.
  unfold nonblank in Hnb. rewrite Hnb. cbn [negb].
  assert (Hblock : exists new,
             ops (body_block widthOfTextAtSize toLowerCase (trim raw) st)
             = ops st ++ new /\ Forall P new).
  { unfold body_block.
    destruct (endsWith (trim raw) (js ":")).
    - unfold section_header. cbv zeta.
      destruct (flow_inv _ SECTION_LINE_HEIGHT
                  (text_at_inv left SECTION_HEADER_SIZE HelveticaBold DARK_BLUE)
                  (wrapText widthOfTextAtSize (trim raw) HelveticaBold
                            SECTION_HEADER_SIZE CONTENT_WIDTH)
                  (advance (pt 12) st) H12) as (new & Hops & Hnew & _).
      exists new. split; [|exact Hnew].
      destruct (JsString.eqb _ _); cbn [ops]; exact Hops.
    - cbv zeta. destruct (Regex.test re_job_test (trim raw)).
      + destruct (Regex.exec re_job 3 (trim raw)) as [m|].
        * now apply job_entry_inv.
        * exists []. now rewrite app_nil_r.
      + destruct (startsWith (trim raw) (js "·")).
        * unfold skills_category. cbv zeta.
          destruct (flow_inv _ (BODY_LINE_HEIGHT + pt 2)
                      (text_at_inv (left + pt 10) (BODY_SIZE + pt 1)
                                   HelveticaBold MEDIUM_BLUE)
                      (wrapText widthOfTextAtSize (trim (trim raw))
                                HelveticaBold (BODY_SIZE + pt 1)
                                (CONTENT_WIDTH - pt 20))
                      st Hst) as (new & Hops & Hnew & _).
          eauto.
        * unfold plain_body. cbv zeta.
          destruct (flow_inv _ BODY_LINE_HEIGHT
                      (bold_inv (left + pt 10) BODY_SIZE Helvetica
                                HelveticaBold BLACK)
                      (wrapText widthOfTextAtSize (trim raw) Helvetica
                                BODY_SIZE (CONTENT_WIDTH - pt 10))
                      st Hst) as (new & Hops & Hnew & _).
          eauto. }
  destruct Hblock as (new & Hops & Hnew).
  destruct (roll_inv (body_block widthOfTextAtSize toLowerCase (trim raw) st))
    as (page & Hroll & Hpage).
  exists (new ++ page). split; [|split].
  - rewrite Hroll, Hops. now rewrite app_assoc.
  - apply Forall_app. now split.
  - apply ok_roll.
Qed.

End FlowInvariant.

Lemma roll_on_page (st : cursor) : (MARGIN_BOTTOM <= y (roll st))%Z.
Proof.
  unfold roll. destruct (Z.ltb_spec (y st) MARGIN_BOTTOM); cbn [y]; [|lia].
  vm_compute. discriminate.
Qed.

(** X16.  A round of the body loop that starts with the cursor at least
    12pt above the bottom margin keeps to the page: on a non-blank line it
    only adds operations to the document, every text it draws is at or
    above the bottom margin, and it leaves the cursor at or above the
    bottom margin.  Only the gaps that are not followed by a page check
    can carry a text below the margin. *)
Theorem body_line_on_page
    (widthOfTextAtSize : font -> jstring -> Z -> Z)
    (toLowerCase : jstring -> jstring) (st : cursor) (raw : jstring) :
  nonblank raw = true ->
  (MARGIN_BOTTOM + pt 12 <= y st)%Z ->
  exists new,
    ops (body_line widthOfTextAtSize toLowerCase st raw) = ops st ++ new
    /\ Forall on_page new
    /\ (MARGIN_BOTTOM <= y (body_line widthOfTextAtSize toLowerCase st raw))%Z.
Proof.
  intros Hnb Hy.
  apply (body_line_inv widthOfTextAtSize toLowerCase
           (fun y0 => (MARGIN_BOTTOM <= y0)%Z) on_page).
  - exact I.
  - exact roll_on_page.
  - intros text x y0 size f c Hy0. exact Hy0.
  - exact Hnb.
  - unfold pt in Hy. lia.
  - unfold pt in *. lia.
  - unfold pt in *. lia.
Qed.

Lemma body_line_on_page_witness :
  exists new,
    ops (Sample.body_line
           {| ops := [new_page]; y := 62000; inSkillsSection := false |}
           (js "Skills:"))
    = [new_page] ++ new
    /\ Forall on_page new.
Proof.
  destruct (body_line_on_page Sample.widthOfTextAtSize Sample.toLowerCase
              {| ops := [new_page]; y := 62000; inSkillsSection := false |}
              (js "Skills:")) as (new & Hops & Hnew & _).
  - vm_compute. reflexivity.
  - vm_compute. discriminate.
  - exists new. split; [exact Hops|exact Hnew].
Defined.

Lemma stack_inv (P : op -> Prop) (draw : jstring -> Z -> list op)
    (height : Z) :
  (forall line y0, Forall P (draw line y0)) ->
  forall lines st,
  exists new,
    ops (stack draw height lines st) = ops st ++ new /\ Forall P new.
Proof.
  intros Hdraw. induction lines as [|line lines IH]; intros st.
  - exists []. cbn. now rewrite app_nil_r.
  - unfold stack in *. cbn [fold_left].
    destruct (IH (advance height (emit (draw line (y st)) st)))
      as (new & Hops & Hnew).
    exists (draw line (y st) ++ new). split.
    + rewrite Hops. cbn [ops advance emit]. now rewrite <- app_assoc.
    + apply Forall_app. split; [apply Hdraw|exact Hnew].
Qed.

Lemma layoutHeader_pages (widthOfTextAtSize : font -> jstring -> Z -> Z)
    (toUpperCase : jstring -> jstring) (r : resume) :
  exists new,
    ops (layoutHeader widthOfTextAtSize toUpperCase r) = new_page :: new
    /\ Forall a4_page new.
Proof.
  assert (Htext : forall x size f c line y0,
             Forall a4_page (text_at x size f c line y0)).
  { intros. unfold text_at. constructor; [exact I|constructor]. }
  unfold layoutHeader. cbv zeta.
  set (st0 := {| ops := [new_page]; y := (PAGE_HEIGHT - MARGIN_TOP)%Z;
                 inSkillsSection := false |}).
  set (st1 := match name r with
              | Some name =>
                if truthy name
                then advance (pt 2)
                       (stack (text_at left NAME_SIZE HelveticaBold DARK_BLUE)
                              NAME_LINE_HEIGHT
                              (wrapText widthOfTextAtSize (toUpperCase name)
                                        HelveticaBold NAME_SIZE CONTENT_WIDTH)
                              st0)
                else advance NAME_LINE_HEIGHT st0
              | None => advance NAME_LINE_HEIGHT st0
              end).
  assert (H1 : exists new, ops st1 = new_page :: new /\ Forall a4_page new).
  { unfold st1. destruct (name r) as [n|]; [destruct (truthy n)|].
    - destruct (stack_inv a4_page _ NAME_LINE_HEIGHT
                  (Htext left NAME_SIZE HelveticaBold DARK_BLUE)
                  (wrapText widthOfTextAtSize (toUpperCase n) HelveticaBold
                            NAME_SIZE CONTENT_WIDTH) st0)
        as (new & Hops & Hnew).
      exists new. cbn [ops advance]. now rewrite Hops.
    - exists []. now split.
    - exists []. now split. }
  destruct H1 as (n1 & H1 & Hn1).
  set (contactParts := filter_Boolean [location r; phone r; email r; linkedin r]).
  set (st2 := if (0 <? length contactParts)%nat
              then advance (pt 4)
                     (stack (text_at left CONTACT_SIZE Helvetica DARK_GRAY)
                            CONTACT_LINE_HEIGHT
                            (wrapText widthOfTextAtSize
                                      (join (js " • ") contactParts)
                                      Helvetica CONTACT_SIZE CONTENT_WIDTH)
                            st1)
              else st1).
  assert (H2 : exists new, ops st2 = new_page :: new /\ Forall a4_page new).
  { unfold st2. destruct (0 <? length contactParts)%nat.
    - destruct (stack_inv a4_page _ CONTACT_LINE_HEIGHT
                  (Htext left CONTACT_SIZE Helvetica DARK_GRAY)
                  (wrapText widthOfTextAtSize (join (js " • ") contactParts)
                            Helvetica CONTACT_SIZE CONTENT_WIDTH) st1)
        as (new & Hops & Hnew).
      exists (n1 ++ new). cbn [ops advance]. rewrite Hops, H1.
      split; [reflexivity|]. apply Forall_app. now split.
    - exists n1. now split. }
  destruct H2 as (n2 & H2 & Hn2).
  exists (n2 ++ [DrawLine left (y st2) right (y st2) 1500 DARK_BLUE]).
  cbn [ops advance emit]. rewrite H2. split; [reflexivity|].
  apply Forall_app. split; [exact Hn2|]. constructor; [exact I|constructor].
Qed.

Lemma layoutBody_pages (widthOfTextAtSize : font -> jstring -> Z -> Z)
    (toLowerCase : jstring -> jstring) (lines : list jstring) :
  forall st,
  exists new,
    ops (fold_left (body_line widthOfTextAtSize toLowerCase) lines st)
    = ops st ++ new
    /\ Forall a4_page new.
Proof.
  induction lines as [|raw lines IH]; intros st.
  - exists []. cbn. now rewrite app_nil_r.
  - cbn [fold_left].
    assert (Hline : exists new,
               ops (body_line widthOfTextAtSize toLowerCase st raw)
               = ops st ++ new /\ Forall a4_page new).
    { destruct (nonblank raw) eqn:Hnb.
      - destruct (body_line_inv widthOfTextAtSize toLowerCase
                    (fun _ => True) a4_page (conj eq_refl eq_refl)
                    (fun _ => I) (fun _ _ _ _ _ _ _ => I) st raw Hnb I I I)
          as (new & Hops & Hnew & _).
        eauto.
      - unfold body_line. cbv zeta. unfold nonblank in Hnb.
        rewrite Hnb. cbn [negb ops advance]. exists []. now rewrite app_nil_r. }
    destruct Hline as (n1 & H1 & Hn1).
    destruct (IH (body_line widthOfTextAtSize toLowerCase st raw))
      as (n2 & H2 & Hn2).
    exists (n1 ++ n2). rewrite H2, H1, <- app_assoc.
    split; [reflexivity|]. apply Forall_app. now split.
Qed.

Lemma layoutSkills_inert (widthOfTextAtSize : font -> jstring -> Z -> Z)
    (st : cursor) :
  layoutSkills widthOfTextAtSize st = st.
Proof. unfold layoutSkills. cbv zeta. cbn [length Nat.ltb Nat.leb].
       now rewrite andb_false_r. Qed.

(** X17.  Every document starts with a page, and every page of it, the
    first one and the ones added when the cursor leaves the page, has the
    same fixed size of 595 by 842 points. *)
Theorem generateResumePdf_pages
    (widthOfTextAtSize : font -> jstring -> Z -> Z)
    (toUpperCase toLowerCase : jstring -> jstring) (resumeText : jstring) :
  exists rest,
    generateResumePdf widthOfTextAtSize toUpperCase toLowerCase resumeText
    = AddPage 595000 842000 :: rest
    /\ Forall a4_page rest.
Proof.
  unfold generateResumePdf. cbv zeta. rewrite layoutSkills_inert.
  unfold layoutBody.
  destruct (layoutHeader_pages widthOfTextAtSize toUpperCase
              (parseResume resumeText)) as (n1 & H1 & Hn1).
  destruct (layoutBody_pages widthOfTextAtSize toLowerCase
              (JsString.split LF (body (parseResume resumeText)))
              (layoutHeader widthOfTextAtSize toUpperCase
                            (parseResume resumeText))) as (n2 & H2 & Hn2).
  exists (n1 ++ n2). rewrite H2, H1. split; [reflexivity|].
  apply Forall_app. now split.
Qed.

Lemma parseResume_blank_record (resumeText : jstring) :
  filter nonblank (JsString.split LF resumeText) = [] ->
  parseResume resumeText
  = {| headline := None; name := None; email := None; phone := None;
       location := None; linkedin := None; body := [] |}.
Proof.
  intros Hblank. unfold parseResume.
  rewrite header_scan_short by (rewrite Hblank; cbn; lia).
  rewrite Hblank. cbn [map app nth_error].
  rewrite body_after. cbn [skipn].
  now rewrite from_nonblank_none.
Qed.

(** X18.  A text without a non-blank line gives a document of one page
    that holds the rule alone, at 750.8pt: no name, no contact line, no
    body, whatever the font metrics. *)
Theorem generateResumePdf_blank
    (widthOfTextAtSize : font -> jstring -> Z -> Z)
    (toUpperCase toLowerCase : jstring -> jstring) (resumeText : jstring) :
  filter nonblank (JsString.split LF resumeText) = [] ->
  generateResumePdf widthOfTextAtSize toUpperCase toLowerCase resumeText
  = [AddPage 595000 842000;
     DrawLine 50000 750800 545000 750800 1500 DARK_BLUE].
Proof.
  intros Hblank. unfold generateResumePdf. cbv zeta.
  rewrite (parseResume_blank_record resumeText Hblank).
  rewrite layoutSkills_inert. reflexivity.
Qed.

Lemma generateResumePdf_blank_witness :
  Sample.generateResumePdf (js "
  
")
  = [AddPage 595000 842000;
     DrawLine 50000 750800 545000 750800 1500 DARK_BLUE].
Proof.
  apply generateResumePdf_blank. vm_compute. reflexivity.
Defined.

Lemma split_covers (sep : N) (s : jstring) (c : N) :
  In c s -> c = sep \/ exists w, In w (JsString.split sep s) /\ In c w.
Proof.
  induction s as [|c0 r IH]; [contradiction|]. cbn [JsString.split].
  intros [<-|Hin].
  - destruct (N.eqb_spec c0 sep) as [->|_]; [now left|right].
    destruct (JsString.split sep r) as [|h t];
      eexists; (split; [now left|now left]).
  - destruct (IH Hin) as [->|(w & Hw & Hc)]; [now left|right].
    destruct (N.eqb_spec c0 sep) as [_|_].
    + exists w. split; [now right|exact Hc].
    + destruct (JsString.split sep r) as [|h t]; [contradiction|].
      destruct Hw as [<-|Hw].
      * exists (c0 :: h). split; [now left|now right].
      * exists w. split; [now right|exact Hc].
Qed.

Lemma split_units (sep : N) (s : jstring) (w : jstring) (c : N) :
  In w (JsString.split sep s) -> In c w -> In c s.
Proof.
  revert w. induction s as [|c0 r IH]; intros w; cbn [JsString.split].
  - intros [<-|[]] [].
  - destruct (N.eqb_spec c0 sep) as [_|_].
    + intros [<-|Hw] Hc; [contradiction|right; eauto].
    + destruct (JsString.split sep r) as [|h t] eqn:E.
      * intros [<-|[]] [<-|[]]. now left.
      * intros [<-|Hw] Hc.
        -- destruct Hc as [<-|Hc]; [now left|right].
           apply (IH h); [now left|exact Hc].
        -- right. apply (IH w); [now right|exact Hc].
Qed.

(** The units of a wrapped line come from the text, spaces apart. *)
Lemma wrapText_units (widthOfTextAtSize : font -> jstring -> Z -> Z)
    (text : jstring) (f : font) (size maxWidth : Z) (line : jstring) (c : N) :
  In line (wrapText widthOfTextAtSize text f size maxWidth) ->
  In c line -> c = SPACE \/ In c text.
Proof.
  intros Hline Hc.
  destruct (split_covers SPACE line c Hc) as [->|(w & Hw & Hcw)];
    [now left|right].
  assert (Hwords : In w (space_words text)).
  { rewrite <- (wrapText_words widthOfTextAtSize text f size maxWidth).
    apply in_flat_map. exists line. split; [exact Hline|].
    unfold space_words. apply filter_In. split; [exact Hw|].
    destruct w; [contradiction|reflexivity]. }
  unfold space_words in Hwords. apply filter_In in Hwords.
  exact (split_units SPACE text w c (proj1 Hwords) Hcw).
Qed.

Lemma bold_span_asterisk (text : jstring) :
  bold_span text -> In ASTERISK text.
Proof.
  intros (pre & mid & post & -> & _ & _).
  apply in_or_app. right. now left.
Qed.

Lemma draw_plain_text (widthOfTextAtSize : font -> jstring -> Z -> Z)
    (text : jstring) (x y0 : Z) (f fontBold : font) (size : Z) (c : color) :
  ~ In ASTERISK text ->
  drawTextWithBold widthOfTextAtSize text x y0 f fontBold size c
  = [DrawText text x y0 size f c].
Proof.
  intros Hno. unfold drawTextWithBold.
  rewrite (split_no_match re_bold 1 text).
  - cbn [fold_left]. unfold bold_step.
    now rewrite (plain_part_guard text Hno).
  - apply no_span_no_match. intros Hs. now apply Hno, bold_span_asterisk.
Qed.

Lemma flow_drawn_on (ok_line : jstring -> Prop)
    (draw : jstring -> Z -> list op)
    (texts : jstring -> list (jstring * font)) (height : Z) :
  (forall line y0, ok_line line -> drawn (draw line y0) = texts line) ->
  forall lines st,
  Forall ok_line lines ->
  exists new,
    ops (flow draw height lines st) = ops st ++ new
    /\ drawn new = flat_map texts lines.
Proof.
  intros Hdraw. induction lines as [|line lines IH]; intros st Hall.
  - exists []. cbn. now rewrite app_nil_r.
  - inversion Hall as [|? ? Hline Hrest]; subst.
    unfold flow in *. cbn [fold_left].
    destruct (IH (roll (advance height (emit (draw line (y st)) st))) Hrest)
      as (new & Hops & Hnew).
    destruct (roll_ops (advance height (emit (draw line (y st)) st)))
      as (page & Hroll & Hpage).
    exists (draw line (y st) ++ page ++ new). split.
    + rewrite Hops, Hroll. cbn [ops advance emit]. now rewrite <- !app_assoc.
    + rewrite !drawn_app, (Hdraw line (y st) Hline), Hpage, Hnew. reflexivity.
Qed.

(** X19.  A plain body line without an asterisk is drawn whole: the texts
    drawn are the lines of its wrapping, in the plain font, and their
    words are the words of the line, in order. *)
Theorem plain_body_line_words
    (widthOfTextAtSize : font -> jstring -> Z -> Z)
    (toLowerCase : jstring -> jstring) (st : cursor) (raw : jstring) :
  let line := trim raw in
  let wrappedLines :=
    wrapText widthOfTextAtSize line Helvetica BODY_SIZE
             (CONTENT_WIDTH - pt 10) in
  truthy line = true ->
  endsWith line (js ":") = false ->
  Regex.test re_job_test line = false ->
  startsWith line (js "·") = false ->
  ~ In ASTERISK line ->
  exists new,
    ops (body_line widthOfTextAtSize toLowerCase st raw) = ops st ++ new
    /\ drawn new = map (fun l => (l, Helvetica)) wrappedLines
    /\ flat_map space_words (map fst (drawn new)) = space_words line.
Proof.
  intros line wrappedLines Htruthy Hcolon Hjob Hdot Hno.
  unfold body_line, body_block. cbv zeta. change (trim raw) with line.
  rewrite Htruthy, Hcolon, Hjob, Hdot. cbn [negb].
  unfold plain_body. cbv zeta. fold wrappedLines.
  assert (Hall : Forall (fun l => ~ In ASTERISK l) wrappedLines).
  { apply Forall_forall. intros l Hl Hin.
    destruct (wrapText_units _ _ _ _ _ _ _ Hl Hin) as [E|E];
      [discriminate|contradiction]. }
  destruct (flow_drawn_on (fun l => ~ In ASTERISK l)
              (fun wrappedLine y0 =>
                 drawTextWithBold widthOfTextAtSize wrappedLine (left + pt 10)
                                  y0 Helvetica HelveticaBold BODY_SIZE BLACK)
              (fun l => [(l, Helvetica)]) BODY_LINE_HEIGHT)
    with (lines := wrappedLines) (st := st) as (new & Hops & Hnew).
  { intros l y0 Hl. now rewrite draw_plain_text. }
  { exact Hall. }
  destruct (roll_ops
              (flow (fun wrappedLine y0 =>
                       drawTextWithBold widthOfTextAtSize wrappedLine
                                        (left + pt 10) y0 Helvetica
                                        HelveticaBold BODY_SIZE BLACK)
                    BODY_LINE_HEIGHT wrappedLines st))
    as (page & Hroll & Hpage).
  assert (Hdrawn : drawn (new ++ page)
                   = map (fun l => (l, Helvetica)) wrappedLines).
  { rewrite drawn_app, Hnew, Hpage, app_nil_r.
    clear. induction wrappedLines as [|l ls IH]; cbn; [reflexivity|].
    now rewrite IH. }
  exists (new ++ page). split; [|split].
  - rewrite Hroll, Hops. now rewrite app_assoc.
  - exact Hdrawn.
  - rewrite Hdrawn, map_map. cbn [fst]. rewrite map_id.
    apply wrapText_words.
Qed.

Lemma plain_body_line_words_witness :
  exists new,
    ops (Sample.body_line
           {| ops := []; y := 700000; inSkillsSection := false |}
           (js "  Developed   systems. "))
    = new
    /\ flat_map space_words (map fst (drawn new))
       = [js "Developed"; js "systems."].
Proof.
  destruct (plain_body_line_words Sample.widthOfTextAtSize Sample.toLowerCase
              {| ops := []; y := 700000; inSkillsSection := false |}
              (js "  Developed   systems. "))
    as (new & Hops & _ & Hwords);
    try (vm_compute; reflexivity).
  - vm_compute. intuition discriminate.
  - exists new. split; [exact Hops|]. rewrite Hwords. vm_compute. reflexivity.
Defined.

(* ================================================================== *)
(** ** The file name of the response *)
(* ================================================================== *)

Lemma search_class (cls : N -> bool) (suf : jstring) :
  forall pos,
    (Regex.search [Regex.Chr cls] suf pos = None
     /\ existsb cls suf = false)
    \/ exists a c rest,
         suf = a ++ c :: rest /\ existsb cls a = false /\ cls c = true
         /\ Regex.search [Regex.Chr cls] suf pos
            = Some ((pos + length a)%nat, S (pos + length a), Regex.start).
Proof.
  induction suf as [|c suf IH]; intros pos.
  - left. now split.
  - cbn [Regex.search]. unfold Regex.match_at. cbn [Regex.run existsb].
    destruct (cls c) eqn:Hc.
    + right. exists [], c, suf. cbn. rewrite Nat.add_0_r. now repeat split.
    + cbn [orb]. destruct (IH (S pos))
        as [[Hnone Hno]|(a & d & rest & -> & Ha & Hd & Hs)].
      * left. now split.
      * right. exists (c :: a), d, rest. cbn [app existsb length].
        rewrite Hc, Ha, Hs. repeat split; try assumption.
        do 3 f_equal; lia.
Qed.

Lemma flat_map_plain (cls : N -> bool) (replacement a : jstring) :
  existsb cls a = false ->
  flat_map (fun c => if cls c then replacement else [c]) a = a.
Proof.
  induction a as [|c a IH]; [reflexivity|]. cbn [existsb flat_map].
  intros H. apply orb_false_iff in H. destruct H as [Hc Ha].
  now rewrite Hc, (IH Ha).
Qed.

Lemma replace_loop_class (cls : N -> bool) (replacement : jstring) :
  forall fuel suf pre,
    (length suf < fuel)%nat ->
    replace_loop fuel [Regex.Chr cls] replacement (pre ++ suf)
                 (length pre) (length pre)
    = flat_map (fun c => if cls c then replacement else [c]) suf.
Proof.
  induction fuel as [|fuel IH]; intros suf pre Hfuel; [lia|].
  cbn [replace_loop].
  assert (Hle : Nat.ltb (length (pre ++ suf)) (length pre) = false).
  { apply Nat.ltb_ge. rewrite length_app. lia. }
  rewrite Hle, skipn_length_app.
  destruct (search_class cls suf (length pre))
    as [[Hnone Hno]|(a & c & rest & -> & Ha & Hc & Hs)].
  - rewrite Hnone. symmetry. now apply flat_map_plain.
  - rewrite Hs.
    assert (Hne : Nat.eqb (S (length pre + length a)) (length pre + length a)
                  = false) by (apply Nat.eqb_neq; lia).
    rewrite Hne.
    assert (Hsub : Regex.substring (pre ++ a ++ c :: rest) (length pre)
                                   (length pre + length a) = a).
    { unfold Regex.substring. rewrite skipn_length_app.
      replace (length pre + length a - length pre)%nat with (length a) by lia.
      apply firstn_length_app. }
    rewrite Hsub.
    rewrite length_app in Hfuel. cbn [length] in Hfuel.
    specialize (IH rest (pre ++ a ++ [c]) ltac:(lia)).
    rewrite !length_app in IH. cbn [length] in IH.
    replace (length pre + (length a + 1))%nat
      with (S (length pre + length a)) in IH by lia.
    replace ((pre ++ a ++ [c]) ++ rest) with (pre ++ a ++ c :: rest) in IH
      by (now rewrite <- !app_assoc).
    rewrite IH, flat_map_app. cbn [flat_map].
    now rewrite Hc, (flat_map_plain cls replacement a Ha).
Qed.

(** Replacing every unit outside the class by an underscore. *)
Lemma sanitize_map (s : jstring) :
  replaceAll re_unsafe (js "_") s = map safe_unit s.
Proof.
  unfold replaceAll, re_unsafe.
  pose proof (replace_loop_class (fun c => negb (is_word c)) (js "_")
                (length s + 2) s [] ltac:(lia)) as H.
  cbn [app length] in H. rewrite H.
  clear. induction s as [|c s IH]; [reflexivity|]. cbn [flat_map map].
  rewrite IH. unfold safe_unit. destruct (is_word c); reflexivity.
Qed.

Lemma safe_unit_word (c : N) : is_word (safe_unit c) = true.
Proof.
  unfold safe_unit. destruct (is_word c) eqn:E; [exact E|reflexivity].
Qed.

(** X20.  The file name quoted in the [Content-Disposition] header is made
    of ASCII letters, digits and underscores only, whatever [company] and
    [role] are, so it cannot hold a quote, a line break or a path
    separator; it is as long as the prefix, the company, an underscore and
    the role together. *)
Theorem fileBase_safe (company role : jstring) :
  contentDisposition company role
  = js "attachment; filename=" ++ [34%N] ++ fileBase company role
      ++ js ".pdf" ++ [34%N]
  /\ forallb is_word (fileBase company role) = true
  /\ length (fileBase company role)
     = (12 + length company + 1 + length role)%nat.
Proof.
  split; [reflexivity|].
  unfold fileBase. rewrite !sanitize_map. split.
  - rewrite !forallb_app. rewrite !andb_true_iff.
    assert (Hmap : forall s, forallb is_word (map safe_unit s) = true).
    { intros s. apply forallb_forall. intros c Hc.
      apply in_map_iff in Hc. destruct Hc as (d & <- & _).
      apply safe_unit_word. }
    repeat split; try apply Hmap; reflexivity.
  - rewrite !length_app, !length_map. cbn. lia.
Qed.

(** X21.  Making a name safe keeps a safe name as it is, and doing it
    twice is doing it once. *)
Theorem sanitize_fixed (s : jstring) :
  (forallb is_word s = true -> replaceAll re_unsafe (js "_") s = s)
  /\ replaceAll re_unsafe (js "_") (replaceAll re_unsafe (js "_") s)
     = replaceAll re_unsafe (js "_") s.
Proof.
  assert (Hid : forall t, forallb is_word t = true -> map safe_unit t = t).
  { induction t as [|c t IH]; [reflexivity|]. cbn [forallb map].
    intros H. apply andb_true_iff in H. destruct H as [Hc Ht].
    unfold safe_unit at 1. now rewrite Hc, (IH Ht). }
  rewrite !sanitize_map. split; [exact (Hid s)|].
  apply Hid. apply forallb_forall. intros c Hc.
  apply in_map_iff in Hc. destruct Hc as (d & <- & _). apply safe_unit_word.
Qed.

Lemma sanitize_fixed_witness :
  replaceAll re_unsafe (js "_") (js "Acme_Corp2") = js "Acme_Corp2".
Proof.
  apply (proj1 (sanitize_fixed (js "Acme_Corp2"))). vm_compute. reflexivity.
Defined.

(* ================================================================== *)
(** ** The section header and the job entry: what is drawn *)
(* ================================================================== *)

Lemma flat_map_single (f : font) (lines : list jstring) :
  flat_map (fun l => [(l, f)]) lines = map (fun l => (l, f)) lines.
Proof. induction lines as [|l ls IH]; cbn; [reflexivity|now rewrite IH]. Qed.

Lemma text_at_drawn (x size : Z) (f : font) (c : color) (line : jstring)
    (y0 : Z) :
  drawn (text_at x size f c line y0) = [(line, f)].
Proof. reflexivity. Qed.



(** X23.  A non-blank line that ends with a colon is drawn as a section
    header and as nothing else: the texts drawn are the lines of its
    wrapping at the header size, colon included, in the bold font. *)
Theorem section_header_drawn
    (widthOfTextAtSize : font -> jstring -> Z -> Z)
    (toLowerCase : jstring -> jstring) (st : cursor) (raw : jstring) :
  let line := trim raw in
  endsWith line (js ":") = true ->
  exists new,
    ops (body_line widthOfTextAtSize toLowerCase st raw) = ops st ++ new
    /\ drawn new
       = map (fun l => (l, HelveticaBold))
             (wrapText widthOfTextAtSize line HelveticaBold
                       SECTION_HEADER_SIZE CONTENT_WIDTH).
Proof.
  intros line Hcolon.
  assert (Htruthy : truthy line = true).
  { destruct line; [discriminate|reflexivity]. }
  unfold body_line, body_block. cbv zeta. change (trim raw) with line.
  rewrite Htruthy, Hcolon. cbn [negb].
  unfold section_header. cbv zeta.
  destruct (flow_drawn
              (text_at left SECTION_HEADER_SIZE HelveticaBold DARK_BLUE)
              (fun l => [(l, HelveticaBold)]) SECTION_LINE_HEIGHT
              (text_at_drawn _ _ _ _)
              (wrapText widthOfTextAtSize line HelveticaBold
                        SECTION_HEADER_SIZE CONTENT_WIDTH)
              (advance (pt 12) st))
    as (new & Hops & Hnew).
  set (st1 := flow _ _ _ (advance (pt 12) st)) in *.
  set (st2 := if JsString.eqb (toLowerCase line) (js "skills:")
              then {| ops := ops st1; y := y st1; inSkillsSection := true |}
              else st1).
  assert (Hst2 : ops st2 = ops st1 /\ y st2 = y st1).
  { unfold st2. destruct (JsString.eqb _ _); now split. }
  destruct (roll_ops st2) as (page & Hroll & Hpage).
  exists (new ++ page). split.
  - rewrite Hroll, (proj1 Hst2), Hops. cbn [ops advance].
    now rewrite app_assoc.
  - now rewrite drawn_app, Hnew, Hpage, app_nil_r, flat_map_single.
Qed.

Lemma section_header_drawn_witness :
  exists new,
    ops (Sample.body_line
           {| ops := []; y := 700000; inSkillsSection := false |}
           (js " Summary: "))
    = new
    /\ drawn new = [(js "Summary:", HelveticaBold)].
Proof.
  destruct (section_header_drawn Sample.widthOfTextAtSize Sample.toLowerCase
              {| ops := []; y := 700000; inSkillsSection := false |}
              (js " Summary: "))
    as (new & Hops & Hnew).
  - vm_compute. reflexivity.
  - exists new. split; [exact Hops|]. rewrite Hnew. vm_compute. reflexivity.
Defined.

(* ================================================================== *)
(** ** The job line: the test, the pattern and what is drawn *)
(* ================================================================== *)








(* ================================================================== *)
(** ** The header of the document *)
(* ================================================================== *)

Lemma parseResume_after_headline (l rest : jstring) :
  ~ In LF l -> nonblank l = true ->
  (5 <= length (filter nonblank (JsString.split LF rest)))%nat ->
  let fields :=
    firstn 5 (map trim (filter nonblank (JsString.split LF rest))) in
  parseResume (l ++ LF :: rest)
  = {| headline := Some (trim l);
       name := nth_error fields 0;
       email := nth_error fields 1;
       phone := nth_error fields 2;
       location := nth_error fields 3;
       linkedin := nth_error fields 4;
       body := join [LF] (from_nonblank 5 (JsString.split LF rest)) |}.
Proof.
  intros Hl Hnb Hcount fields. unfold parseResume.
  rewrite (split_app_sep LF l rest Hl). cbn [header_scan].
  unfold nonblank in Hnb. rewrite Hnb. cbn [app length Nat.eqb].
  destruct (header_scan_full (JsString.split LF rest) 1 [trim l])
    as (k & Hscan & Hfrom); [cbn; lia|cbn; lia|].
  rewrite Hscan. cbn [length Nat.sub] in *.
  fold fields. cbn [app nth_error].
  rewrite body_after.
  change (skipn (1 + S k) (l :: JsString.split LF rest))
    with (skipn (S k) (JsString.split LF rest)).
  now rewrite Hfrom.
Qed.

(** X25.  The first line of a complete header, the headline, is read and
    never drawn: on a text with at least six non-blank lines, putting any
    other non-blank line in the place of the first line gives the same
    document. *)
Theorem generateResumePdf_ignores_headline
    (widthOfTextAtSize : font -> jstring -> Z -> Z)
    (toUpperCase toLowerCase : jstring -> jstring)
    (headline1 headline2 rest : jstring) :
  ~ In LF headline1 -> nonblank headline1 = true ->
  ~ In LF headline2 -> nonblank headline2 = true ->
  (5 <= length (filter nonblank (JsString.split LF rest)))%nat ->
  generateResumePdf widthOfTextAtSize toUpperCase toLowerCase
                    (headline1 ++ LF :: rest)
  = generateResumePdf widthOfTextAtSize toUpperCase toLowerCase
                      (headline2 ++ LF :: rest).
Proof.
  intros H1 Hn1 H2 Hn2 Hcount. unfold generateResumePdf. cbv zeta.
  rewrite (parseResume_after_headline headline1 rest H1 Hn1 Hcount).
  rewrite (parseResume_after_headline headline2 rest H2 Hn2 Hcount).
  cbv zeta. cbn [body]. unfold layoutHeader.
  cbn [name email phone location linkedin]. reflexivity.
Qed.

Lemma generateResumePdf_ignores_headline_witness :
  Sample.generateResumePdf (js "Engineer" ++ LF :: js "Ada
a@b.org
555
London
in/ada
Summary:")
  = Sample.generateResumePdf (js "Senior Staff Wizard" ++ LF :: js "Ada
a@b.org
555
London
in/ada
Summary:").
Proof.
  unfold Sample.generateResumePdf.
  apply generateResumePdf_ignores_headline.
  - vm_compute. intuition discriminate.
  - vm_compute. reflexivity.
  - vm_compute. intuition discriminate.
  - vm_compute. reflexivity.
  - vm_compute. lia.
Defined.

Lemma stack_drawn (draw : jstring -> Z -> list op)
    (texts : jstring -> list (jstring * font)) (height : Z) :
  (forall line y0, drawn (draw line y0) = texts line) ->
  forall lines st,
  exists new,
    ops (stack draw height lines st) = ops st ++ new
    /\ drawn new = flat_map texts lines.
Proof.
  intros Hdraw. induction lines as [|line lines IH]; intros st.
  - exists []. cbn. now rewrite app_nil_r.
  - unfold stack in *. cbn [fold_left].
    destruct (IH (advance height (emit (draw line (y st)) st)))
      as (new & Hops & Hnew).
    exists (draw line (y st) ++ new). split.
    + rewrite Hops. cbn [ops advance emit]. now rewrite <- app_assoc.
    + now rewrite drawn_app, Hdraw, Hnew.
Qed.

(** X26.  With a name and all four contact fields present, the header
    draws the wrapping of the upper-cased name in the bold font, then the
    wrapping of one contact line in the plain font, and no other text; the
    contact line lists location, phone, email and link in this order, with
    a bullet between spaces as separator, not in the order of the input
    lines (email, phone, location, link). *)
Theorem layoutHeader_drawn
    (widthOfTextAtSize : font -> jstring -> Z -> Z)
    (toUpperCase : jstring -> jstring) (r : resume)
    (name0 email0 phone0 location0 linkedin0 : jstring) :
  name r = Some name0 -> email r = Some email0 -> phone r = Some phone0 ->
  location r = Some location0 -> linkedin r = Some linkedin0 ->
  truthy name0 = true -> truthy email0 = true -> truthy phone0 = true ->
  truthy location0 = true -> truthy linkedin0 = true ->
  drawn (ops (layoutHeader widthOfTextAtSize toUpperCase r))
  = map (fun l => (l, HelveticaBold))
        (wrapText widthOfTextAtSize (toUpperCase name0) HelveticaBold
                  NAME_SIZE CONTENT_WIDTH)
    ++ map (fun l => (l, Helvetica))
           (wrapText widthOfTextAtSize
                     (location0 ++ js " • " ++ phone0 ++ js " • "
                        ++ email0 ++ js " • " ++ linkedin0)
                     Helvetica CONTACT_SIZE CONTENT_WIDTH).
Proof.
  intros Hn He Hp Hl Hk Tn Te Tp Tl Tk.
  unfold layoutHeader. cbv zeta.
  rewrite Hn, He, Hp, Hl, Hk, Tn.
  cbn [filter_Boolean flat_map]. rewrite Te, Tp, Tl, Tk.
  cbn [app length Nat.ltb Nat.leb join].
  set (st0 := {| ops := [new_page]; y := (PAGE_HEIGHT - MARGIN_TOP)%Z;
                 inSkillsSection := false |}).
  destruct (stack_drawn
              (text_at left NAME_SIZE HelveticaBold DARK_BLUE)
              (fun l => [(l, HelveticaBold)]) NAME_LINE_HEIGHT
              (text_at_drawn _ _ _ _)
              (wrapText widthOfTextAtSize (toUpperCase name0) HelveticaBold
                        NAME_SIZE CONTENT_WIDTH) st0)
    as (n1 & H1 & Hn1).
  set (st1 := advance (pt 2) (stack _ _ _ st0)) in *.
  destruct (stack_drawn
              (text_at left CONTACT_SIZE Helvetica DARK_GRAY)
              (fun l => [(l, Helvetica)]) CONTACT_LINE_HEIGHT
              (text_at_drawn _ _ _ _)
              (wrapText widthOfTextAtSize
                        (location0 ++ js " • " ++ phone0 ++ js " • "
                           ++ email0 ++ js " • " ++ linkedin0)
                        Helvetica CONTACT_SIZE CONTENT_WIDTH) st1)
    as (n2 & H2 & Hn2).
  cbn [ops advance emit]. rewrite H2. unfold st1. cbn [ops advance].
  rewrite H1. unfold st0. cbn [ops].
  rewrite !drawn_app, Hn1, Hn2, !flat_map_single. cbn [drawn app].
  now rewrite app_nil_r.
Qed.

Lemma layoutHeader_drawn_witness :
  drawn (ops (layoutHeader Sample.widthOfTextAtSize Sample.toUpperCase
                (parseResume (js "Engineer
Ada
a@b.org
555
London
in/ada
Summary:"))))
  = [(js "ADA", HelveticaBold);
     (js "London • 555 • a@b.org • in/ada", Helvetica)].
Proof.
  rewrite (layoutHeader_drawn Sample.widthOfTextAtSize Sample.toUpperCase _
             (js "Ada") (js "a@b.org") (js "555") (js "London") (js "in/ada"));
    vm_compute; reflexivity.
Defined.
